(** * arx supervisor: node routing, registration and health monitoring

    A shallow embedding of the Go supervisor service
    (packages [models], [db] queries, [routing], [api], [health]) and the
    properties of its routing engine, registration handlers and health
    monitor; then the statements of db/queries/nodes.sql that write, and the
    node store and websocket service of the admin UI. *)

From Stdlib Require Import ZArith QArith Qfield Lqa Lia List String Ascii Bool Permutation Floats.
Import ListNotations.

Local Open Scope Z_scope.
Local Open Scope string_scope.

(** ** float64 arithmetic

    The Go code computes on [float64].  Every function of the embedding is
    written once, over an arithmetic interface, and run on two carriers:
    - [float] (Rocq's primitive binary64 numbers): the IEEE 754 arithmetic
      the compiled program performs, with rounding, infinities and NaN;
    - [Q]: the same expressions read as exact rational arithmetic, which is
      the reading in which the spec's formulas are written. *)

Class Arith (F : Type) := {
  f_add : F -> F -> F;
  f_sub : F -> F -> F;
  f_mul : F -> F -> F;
  f_div : F -> F -> F;
  (** Go's [<] on float64 *)
  f_ltb : F -> F -> bool;
  (** the conversion [float64(n)] of an [int] *)
  f_int : Z -> F;
  (** a decimal literal of the source, such as [0.4] or [100.0] *)
  f_lit : Q -> F
}.

(** [math.Sqrt] *)
Class Sqrt (F : Type) := f_sqrt : F -> F.

Declare Scope f64_scope.
Delimit Scope f64_scope with f64.
Notation "x + y" := (f_add x y) : f64_scope.
Notation "x - y" := (f_sub x y) : f64_scope.
Notation "x * y" := (f_mul x y) : f64_scope.
Notation "x / y" := (f_div x y) : f64_scope.
Notation "x <? y" := (f_ltb x y) : f64_scope.

(** The nearest binary64 number to an integer (ties to even): Go's
    [float64(n)]. *)
Definition float_of_Z (z : Z) : float :=
  SF2Prim (binary_normalize prec emax z 0 false).

(** A decimal literal denotes the binary64 number nearest to it; numerator
    and denominator of the literals of this program are exact, so the
    correctly rounded quotient is that number. *)
Definition float_of_Q (q : Q) : float :=
  PrimFloat.div (float_of_Z (Qnum q)) (float_of_Z (Zpos (Qden q))).

#[export] Instance IEEE : Arith float := {
  f_add := PrimFloat.add;
  f_sub := PrimFloat.sub;
  f_mul := PrimFloat.mul;
  f_div := PrimFloat.div;
  f_ltb := PrimFloat.ltb;
  f_int := float_of_Z;
  f_lit := float_of_Q
}.

#[export] Instance IEEE_sqrt : Sqrt float := PrimFloat.sqrt.

#[export] Instance Exact : Arith Q := {
  f_add := Qplus;
  f_sub := Qminus;
  f_mul := Qmult;
  f_div := Qdiv;
  f_ltb := fun x y => negb (Qle_bool y x);
  f_int := inject_Z;
  f_lit := fun q => q
}.

(** ** Go run-time outcomes: a function returns or panics. *)

Inductive go (A : Type) : Type :=
| Ret (a : A)
| Panic (msg : string).
Arguments Ret {A} a.
Arguments Panic {A} msg.

Definition bind {A B : Type} (m : go A) (k : A -> go B) : go B :=
  match m with
  | Ret a => k a
  | Panic msg => Panic msg
  end.

Notation "x <- m ;; k" := (bind m (fun x => k))
  (at level 61, m at next level, right associativity).

(** Go's [error] values (their message) and [uuid.UUID] (its 128 bits). *)
Definition error := string.
Definition UUID := N.
(** [time.Time], as seconds; the zero time is [0]. *)
Definition Time := Z.

(** ** [sort.Slice]

    The standard library's sort is taken by its contract: it rearranges the
    slice (whatever [less] is), and the result is ordered when [less] is a
    strict weak order.  It is not stable, so nothing more is known of the
    order of elements that compare equal. *)

Definition strict_weak {A : Type} (less : A -> A -> bool) : Prop :=
  (forall a, less a a = false) /\
  (forall a b c, less a b = true -> less b c = true -> less a c = true) /\
  (forall a b c, less a b = false -> less b c = false -> less a c = false).

Inductive ordered {A : Type} (less : A -> A -> bool) : list A -> Prop :=
| ordered_nil : ordered less []
| ordered_cons a l :
    Forall (fun b => less b a = false) l -> ordered less l -> ordered less (a :: l).

Class SliceSorter := sortSlice : forall A : Type, (A -> A -> bool) -> list A -> list A.
Arguments sortSlice {_} {A} less l.

Class SliceSorterLaws `{SliceSorter} : Prop := {
  sortSlice_perm : forall (A : Type) (less : A -> A -> bool) (l : list A),
    Permutation (sortSlice less l) l;
  sortSlice_ordered : forall (A : Type) (less : A -> A -> bool) (l : list A),
    strict_weak less -> ordered less (sortSlice less l)
}.

(** Insertion sort, which is what [sort.Slice] runs on slices of at most
    twelve elements: each element in turn moves left past the elements it is
    [less] than.  [sortedRev] holds the part already sorted, last element
    first. *)
Fixpoint insertLeft {A : Type} (less : A -> A -> bool) (a : A) (sortedRev : list A) : list A :=
  match sortedRev with
  | [] => [a]
  | b :: rest => if less a b then b :: insertLeft less a rest else a :: sortedRev
  end.

Definition insertionSort {A : Type} (less : A -> A -> bool) (l : list A) : list A :=
  rev (fold_left (fun sortedRev a => insertLeft less a sortedRev) l []).

#[export] Instance InsertionSorter : SliceSorter := @insertionSort.

(** The sorted part kept by [insertLeft], last element first. *)
Inductive orderedRev {A : Type} (less : A -> A -> bool) : list A -> Prop :=
| orderedRev_nil : orderedRev less []
| orderedRev_cons b l :
    Forall (fun a => less b a = false) l -> orderedRev less l -> orderedRev less (b :: l).

(** ** package models *)

Module models.
Section Types.
Context {F : Type}.

Record Node : Type := mkNode {
  ID : UUID;
  Name : string;
  LocationX : F;
  LocationY : F;
  Endpoint : string;
  Capacity : Z;
  Status : string;
  CPUUsage : F;
  MemoryUsage : F;
  ActiveConnections : Z;
  LastHealthCheck : option Time;
  CreatedAt : Time;
  UpdatedAt : Time
}.

Record Location : Type := mkLocation { X : F; Y : F }.
End Types.
Arguments Node : clear implicits.
Arguments Location : clear implicits.

(** The zero value [models.Node{}]. *)
Definition zeroNode {F : Type} `{Arith F} : Node F :=
mkNode 0%N "" (f_lit 0) (f_lit 0) "" 0 "" (f_lit 0) (f_lit 0) 0 None 0 0.
End models.

(** ** package db: the rows of table [nodes] and its queries

    A nullable column is an [option]; reading the value field of a NULL
    ([.Int32], [.String], [.Float64], [.Time]) gives the zero value. *)

Module db.
Section Rows.
Context {F : Type} `{Arith F}.

Record Node : Type := mkNode {
  ID : UUID;
  Name : string;
  LocationX : F;
  LocationY : F;
  Endpoint : string;
  Capacity : option Z;
  Status : option string;
  CpuUsage : option F;
  MemoryUsage : option F;
  ActiveConnections : option Z;
  LastHealthCheck : option Time;
  CreatedAt : option Time;
  UpdatedAt : option Time
}.

Definition Int32 (c : option Z) : Z := match c with Some z => z | None => 0 end.
Definition String (c : option string) : string := match c with Some s => s | None => "" end.
Definition Float64 (c : option F) : F := match c with Some x => x | None => f_lit 0 end.
Definition TimeOf (c : option Time) : Time := match c with Some t => t | None => 0 end.

(** The database: the rows of [nodes], held in the order
    [ORDER BY created_at DESC] returns them, and the error every query
    returns while the connection is broken. *)
Record Database : Type := mkDatabase {
  nodes : list Node;
  fault : option error
}.

(** [status = 'healthy']: false on NULL. *)
Definition status_is (s : string) (row : Node) : bool :=
  match Status row with
  | Some v => String.eqb v s
  | None => false
  end.

(** [SELECT * FROM nodes ORDER BY created_at DESC] *)
Definition GetAllNodes (d : Database) : list Node * option error :=
  match fault d with
  | Some e => ([], Some e)
  | None => (nodes d, None)
  end.

(** [SELECT * FROM nodes WHERE status = 'healthy' ORDER BY created_at DESC] *)
Definition GetHealthyNodes (d : Database) : list Node * option error :=
  match fault d with
  | Some e => ([], Some e)
  | None => (filter (status_is "healthy") (nodes d), None)
  end.
End Rows.
Arguments Node : clear implicits.
Arguments Database : clear implicits.
End db.

(** ** package routing *)

Module routing.
Section Engine.
Context {F : Type} `{Arith F} `{Sqrt F} `{SliceSorter}.
Import models.

Definition convertDBNodeToModel (node : db.Node F) : Node F :=
  let lastHealthCheck :=
    match db.LastHealthCheck node with
    | Some t => Some t
    | None => None
    end in
  (* Convert pgtype.UUID to uuid.UUID: sixteen bytes, which FromBytes accepts *)
  let nodeUUID := db.ID node in
  {| ID := nodeUUID;
     Name := db.Name node;
     LocationX := db.LocationX node;
     LocationY := db.LocationY node;
     Endpoint := db.Endpoint node;
     Capacity := db.Int32 (db.Capacity node);
     Status := db.String (db.Status node);
     CPUUsage := db.Float64 (db.CpuUsage node);
     MemoryUsage := db.Float64 (db.MemoryUsage node);
     ActiveConnections := db.Int32 (db.ActiveConnections node);
     LastHealthCheck := lastHealthCheck;
     CreatedAt := db.TimeOf (db.CreatedAt node);
     UpdatedAt := db.TimeOf (db.UpdatedAt node) |}.

(** [math.Pow(d, 2)]: the square. *)
Definition Pow2 (d : F) : F := (d * d)%f64.

Definition CalculateDistance (x1 y1 x2 y2 : F) : F :=
  f_sqrt (Pow2 (x1 - x2) + Pow2 (y1 - y2))%f64.

Record NodeWithDistance : Type := mkNodeWithDistance {
  nwdNode : Node F;
  Distance : F
}.

Definition FindKNearestNodes (nodes : list (Node F)) (x y : F) (k : Z) : go (list (Node F)) :=
  let nodesWithDistance :=
    flat_map (fun node =>
      if String.eqb (Status node) "healthy" then
        let dist := CalculateDistance x y (LocationX node) (LocationY node) in
        [ {| nwdNode := node; Distance := dist |} ]
      else [])
      nodes in
  (* Sort by distance *)
  let nodesWithDistance :=
    sortSlice (fun a b => (Distance a <? Distance b)%f64) nodesWithDistance in
  (* Return k nearest.  [make([]models.Node, 0, k)] panics on a negative
     capacity; a capacity k >= 0 is taken to be allocatable. *)
  if (k <? 0)%Z then Panic "makeslice: cap out of range"
  else Ret (map nwdNode (firstn (Z.to_nat k) nodesWithDistance)).

Definition CalculateLoadScore (node : Node F) : F :=
  let cpuWeight := f_lit 0.4 in
  let memWeight := f_lit 0.3 in
  let connWeight := f_lit 0.3 in
  let cpuScore := (CPUUsage node / f_lit 100.0)%f64 in
  let memScore := (MemoryUsage node / f_lit 100.0)%f64 in
  let connScore := (f_int (ActiveConnections node) / f_int (Capacity node))%f64 in
  (cpuWeight * cpuScore + memWeight * memScore + connWeight * connScore)%f64.

Definition calculateLoadScore (node : Node F) : F := CalculateLoadScore node.

(** The loop of [SelectBestNode] over [nodes[1:]]. *)
Fixpoint selectLoop (bestNode : Node F) (bestScore : F) (rest : list (Node F)) : Node F :=
  match rest with
  | [] => bestNode
  | node :: rest' =>
      let score := calculateLoadScore node in
      if (score <? bestScore)%f64 then selectLoop node score rest'
      else selectLoop bestNode bestScore rest'
  end.

Definition SelectBestNode (nodes : list (Node F)) : Node F :=
  match nodes with
  | [] => zeroNode
  | bestNode :: rest => selectLoop bestNode (calculateLoadScore bestNode) rest
  end.

Record Service : Type := mkService { sdb : db.Database F }.

Definition RouteRequest (s : Service) (requestID : string) (coordinates : Location F)
  : go (option (Node F) * option error) :=
  (* Get all healthy nodes *)
  let '(nodes, err) := db.GetHealthyNodes (sdb s) in
  match err with
  | Some e => Ret (None, Some e)
  | None =>
      (* Convert to models *)
      let modelNodes := map convertDBNodeToModel nodes in
      (* Find k nearest nodes *)
      nearestNodes <- FindKNearestNodes modelNodes (X coordinates) (Y coordinates) 3 ;;
      if (List.length nearestNodes =? 0)%nat then Ret (None, None) (* No healthy nodes available *)
      else
        (* Select best node *)
        let selectedNode := SelectBestNode nearestNodes in
        Ret (Some selectedNode, None)
  end.

Definition GetAllNodes (s : Service) : option (list (Node F)) * option error :=
  let '(nodes, err) := db.GetAllNodes (sdb s) in
  match err with
  | Some e => (None, Some e)
  | None => (Some (map convertDBNodeToModel nodes), None)
  end.
End Engine.
Arguments Service : clear implicits.
Arguments NodeWithDistance : clear implicits.
End routing.

(** ** package websocket: the messages handed to the hub

    [Data] is an [interface{}] in the source; the payloads the handlers and
    the monitor build are these. *)

Module websocket.
Section Messages.
Context {F : Type}.

Inductive Data : Type :=
| RouteData (request_id : string) (coordinates_x coordinates_y : F)
    (selected_node : models.Node F) (distance load_score : F)
    (status : string) (timestamp : Time)
| NodeData (node : models.Node F)
| HealthData (id : UUID) (name status : string) (cpu_usage memory_usage : F)
    (active_connections : Z) (last_health_check : Time).

Record Message : Type := mkMessage { Type_ : string; Data_ : Data }.
End Messages.
Arguments Data : clear implicits.
Arguments Message : clear implicits.
End websocket.

(** What a handler or a probe reads from its environment: the identifier
    [uuid.New()] draws, the clock [time.Now()] (which does not advance within
    one call), and whether the hub's channel can take a message at once. *)
Record Env : Type := mkEnv {
  newUUID : UUID;
  now : Time;
  hubReady : bool
}.

(** ** package api *)

Module api.
Section Handlers.
Context {F : Type} `{Arith F} `{Sqrt F} `{SliceSorter}.
Import models websocket.

Record PublicHandler : Type := mkPublicHandler {
  pdb : db.Database F;
  router : routing.Service F
}.

Record AdminHandler : Type := mkAdminHandler { adb : db.Database F }.

Record RouteRequest : Type := mkRouteRequest {
  RequestID : string;
  Coordinates : Location F;
  Priority : string
}.

Record RegisterNodeRequest : Type := mkRegisterNodeRequest {
  rnName : string;
  rnLocation : Location F;
  rnEndpoint : string
}.

Record CreateNodeRequest : Type := mkCreateNodeRequest {
  cnName : string;
  cnLocation : Location F;
  cnEndpoint : string;
  cnCapacity : Z
}.

Record NodeInfo : Type := mkNodeInfo {
  niID : UUID;
  niName : string;
  niEndpoint : string;
  niDistance : F;
  niLoadScore : F
}.

Record RouteResponse : Type := mkRouteResponse {
  RoutedTo : NodeInfo;
  rrRequestID : string
}.

Inductive Body : Type :=
| ErrorJSON (msg : string)
| BindErrorJSON
| RouteJSON (r : RouteResponse)
| NodeJSON (n : Node F).

Record Response : Type := mkResponse { code : Z; body : Body }.

Definition StatusOK := 200.
Definition StatusCreated := 201.
Definition StatusBadRequest := 400.
Definition StatusInternalServerError := 500.
Definition StatusServiceUnavailable := 503.

(** The tag [binding:"required"]: the field is not the zero value of its
    type.  On a struct it applies to the fields tagged inside it. *)
Definition required_string (s : string) : bool := negb (String.eqb s "").
Definition required_float (x : F) : bool := ((x <? f_lit 0) || (f_lit 0 <? x))%f64.
Definition required_Location (l : Location F) : bool :=
  required_float (X l) && required_float (Y l).

(** [c.ShouldBindJSON(&req)]: the body decodes ([None] when it is not
    JSON of the expected shape) and passes the binding tags. *)
Definition ShouldBindJSON {T : Type} (valid : T -> bool) (payload : option T) : option T :=
  match payload with
  | Some req => if valid req then Some req else None
  | None => None
  end.

Definition validRouteRequest (req : RouteRequest) : bool :=
  required_string (RequestID req) && required_Location (Coordinates req).

Definition validRegisterNodeRequest (req : RegisterNodeRequest) : bool :=
  required_string (rnName req) && required_Location (rnLocation req)
  && required_string (rnEndpoint req).

Definition validCreateNodeRequest (req : CreateNodeRequest) : bool :=
  required_string (cnName req) && required_Location (cnLocation req)
  && required_string (cnEndpoint req).

(** POST /api/v1/route.  The result of a completed call: the response
    written and the messages sent on [wsHub.Broadcast] (the send is a plain
    channel send, which completes when the hub takes the message). *)
Definition PublicHandler_RouteRequest (h : PublicHandler) (env : Env)
    (payload : option RouteRequest) : go (Response * list (Message F)) :=
  match ShouldBindJSON validRouteRequest payload with
  | None => Ret (mkResponse StatusBadRequest BindErrorJSON, [])
  | Some req =>
      (* Route the request *)
      r <- routing.RouteRequest (router h) (RequestID req) (Coordinates req) ;;
      match r with
      | (_, Some _) =>
          Ret (mkResponse StatusInternalServerError (ErrorJSON "Failed to route request"), [])
      | (None, None) =>
          Ret (mkResponse StatusServiceUnavailable (ErrorJSON "No healthy nodes available"), [])
      | (Some selectedNode, None) =>
          (* Calculate distance and load score *)
          let distance :=
            routing.CalculateDistance (X (Coordinates req)) (Y (Coordinates req))
              (LocationX selectedNode) (LocationY selectedNode) in
          let loadScore := routing.CalculateLoadScore selectedNode in
          (* Send real-time update *)
          let update :=
            mkMessage "route_request"
              (RouteData (RequestID req) (X (Coordinates req)) (Y (Coordinates req))
                 selectedNode distance loadScore "routed" (now env)) in
          Ret (mkResponse StatusOK
                 (RouteJSON
                    {| RoutedTo :=
                         {| niID := ID selectedNode;
                            niName := Name selectedNode;
                            niEndpoint := Endpoint selectedNode;
                            niDistance := distance;
                            niLoadScore := loadScore |};
                       rrRequestID := RequestID req |}),
               [update])
      end
  end.

(** POST /api/v1/nodes/register *)
Definition PublicHandler_RegisterNode (h : PublicHandler) (env : Env)
    (payload : option RegisterNodeRequest) : Response * list (Message F) :=
  match ShouldBindJSON validRegisterNodeRequest payload with
  | None => (mkResponse StatusBadRequest BindErrorJSON, [])
  | Some req =>
      let nodeUUID := newUUID env in
      let mockNode :=
        {| ID := nodeUUID;
           Name := rnName req;
           LocationX := X (rnLocation req);
           LocationY := Y (rnLocation req);
           Endpoint := rnEndpoint req;
           Capacity := 100;
           Status := "active";
           CPUUsage := f_lit 0;
           MemoryUsage := f_lit 0;
           ActiveConnections := 0;
           LastHealthCheck := None;
           CreatedAt := now env;
           UpdatedAt := now env |} in
      (mkResponse StatusCreated (NodeJSON mockNode),
       [mkMessage "node_registered" (NodeData mockNode)])
  end.

(** POST /admin/api/v1/nodes *)
Definition AdminHandler_CreateNode (h : AdminHandler) (env : Env)
    (payload : option CreateNodeRequest) : Response * list (Message F) :=
  match ShouldBindJSON validCreateNodeRequest payload with
  | None => (mkResponse StatusBadRequest BindErrorJSON, [])
  | Some req =>
      (* Set default capacity if not provided *)
      let capacity := cnCapacity req in
      let capacity := if (capacity =? 0)%Z then 100 else capacity in
      let nodeUUID := newUUID env in
      let mockNode :=
        {| ID := nodeUUID;
           Name := cnName req;
           LocationX := X (cnLocation req);
           LocationY := Y (cnLocation req);
           Endpoint := cnEndpoint req;
           Capacity := capacity;
           Status := "inactive";
           CPUUsage := f_lit 0;
           MemoryUsage := f_lit 0;
           ActiveConnections := 0;
           LastHealthCheck := None;
           CreatedAt := now env;
           UpdatedAt := now env |} in
      (mkResponse StatusCreated (NodeJSON mockNode),
       [mkMessage "node_created" (NodeData mockNode)])
  end.
End Handlers.
Arguments PublicHandler : clear implicits.
Arguments AdminHandler : clear implicits.
Arguments RouteRequest : clear implicits.
Arguments RegisterNodeRequest : clear implicits.
Arguments CreateNodeRequest : clear implicits.
Arguments Response : clear implicits.
Arguments Body : clear implicits.
End api.

(** ** package health *)

Module health.
Section Monitoring.
Context {F : Type} `{Arith F}.
Import websocket.

Record Monitor : Type := mkMonitor {
  mdb : db.Database F;
  interval : Z
}.

(** [checkNode] makes no request to the node: it builds a mock update and
    offers it to the hub, skipping it when the channel is full.  The result
    is the monitor (with its database) after the call and the messages
    sent. *)
Definition checkNode (m : Monitor) (env : Env) (node : db.Node F)
  : Monitor * list (Message F) :=
  let mockHealthUpdate :=
    mkMessage "node_health_updated"
      (HealthData (newUUID env) "Mock Node" "healthy"
         (f_lit 45.5) (f_lit 67.8) 23 (now env)) in
  (* Send update to WebSocket hub *)
  if hubReady env then (m, [mockHealthUpdate])
  else (* Channel is full, skip this update *) (m, []).

(** [checkAllNodes] starts one [checkNode] per row; [envs] gives what each
    of them reads from its environment. *)
Fixpoint checkEach (m : Monitor) (envs : nat -> Env) (i : nat) (rows : list (db.Node F))
  : Monitor * list (Message F) :=
  match rows with
  | [] => (m, [])
  | node :: rest =>
      let '(m1, sent1) := checkNode m (envs i) node in
      let '(m2, sent2) := checkEach m1 envs (S i) rest in
      (m2, (sent1 ++ sent2)%list)
  end.

Definition checkAllNodes (m : Monitor) (envs : nat -> Env) : Monitor * list (Message F) :=
  let '(nodes, err) := db.GetAllNodes (mdb m) in
  match err with
  | Some _ => (m, [])
  | None => checkEach m envs 0 nodes
  end.

(** [Start]: one [checkAllNodes] per tick of the ticker, here for the first
    [ticks] ticks; [envs t] is the environment of tick [t]. *)
Fixpoint Start (m : Monitor) (envs : nat -> nat -> Env) (ticks : nat)
  : Monitor * list (Message F) :=
  match ticks with
  | O => (m, [])
  | S t =>
      let '(m1, sent1) := Start m envs t in
      let '(m2, sent2) := checkAllNodes m1 (envs t) in
      (m2, (sent1 ++ sent2)%list)
  end.
End Monitoring.
Arguments Monitor : clear implicits.
End health.

(** ** The spec's load score, as §4.3 writes it. *)

Definition spec_load_score {F : Type} `{Arith F}
    (w_cpu w_mem w_conn cpu mem : F) (active_connections capacity : Z) : F :=
  (w_cpu * (cpu / f_lit 100) + w_mem * (mem / f_lit 100)
   + w_conn * (f_int active_connections / f_int capacity))%f64.

(** ** The scenario of §8: two healthy nodes and an unhealthy one. *)

Module scenario.
Definition row (id : UUID) (name : string) (x y : Z) (capacity : Z) (status : string)
    (cpu mem : Z) (conn : Z) : db.Node float :=
  {| db.ID := id; db.Name := name;
     db.LocationX := f_int x; db.LocationY := f_int y;
     db.Endpoint := "http://" ++ name;
     db.Capacity := Some capacity; db.Status := Some status;
     db.CpuUsage := Some (f_int cpu); db.MemoryUsage := Some (f_int mem);
     db.ActiveConnections := Some conn;
     db.LastHealthCheck := Some 1700000000;
     db.CreatedAt := Some 1600000000; db.UpdatedAt := Some 1700000000 |}.

Definition N1 := row 1%N "N1" 0 0 100 "healthy" 10 10 0.
Definition N2 := row 2%N "N2" 10 10 100 "healthy" 90 90 90.
(** N3 sits on the request coordinate and is unhealthy. *)
Definition N3 := row 3%N "N3" 1 1 100 "unhealthy" 5 5 0.

Definition at_1_1 : models.Location float := models.mkLocation (f_int 1) (f_int 1).

Definition service (rows : list (db.Node float)) : routing.Service float :=
  routing.mkService (db.mkDatabase rows None).
End scenario.

(** ** Vocabulary of the statements *)

Section Candidates.
Context {F : Type} `{Arith F} `{Sqrt F}.
Import models routing.

(** The test of [FindKNearestNodes] on a node, and the entry it appends. *)
Definition healthyb (node : Node F) : bool := String.eqb (Status node) "healthy".

Definition withDistance (x y : F) (node : Node F) : NodeWithDistance F :=
  {| nwdNode := node;
     Distance := CalculateDistance x y (LocationX node) (LocationY node) |}.
End Candidates.

(** A node carrying the connection term above its capacity: capacity 100,
    250 connections, cpu and memory at 100. *)
Definition overloaded : models.Node float :=
  models.mkNode 9%N "N9" (f_int 0) (f_int 0) "http://N9" 100 "healthy"
    (f_int 100) (f_int 100) 250 None 0 0.

(** The connection term of the score. *)
Definition connTerm {F : Type} `{Arith F} (node : models.Node F) : F :=
  (f_int (models.ActiveConnections node) / f_int (models.Capacity node))%f64.

(** The node with its active-connection count replaced, every other field
    held fixed. *)
Definition withActiveConnections {F : Type} (node : models.Node F) (c : Z) : models.Node F :=
  {| models.ID := models.ID node;
     models.Name := models.Name node;
     models.LocationX := models.LocationX node;
     models.LocationY := models.LocationY node;
     models.Endpoint := models.Endpoint node;
     models.Capacity := models.Capacity node;
     models.Status := models.Status node;
     models.CPUUsage := models.CPUUsage node;
     models.MemoryUsage := models.MemoryUsage node;
     models.ActiveConnections := c;
     models.LastHealthCheck := models.LastHealthCheck node;
     models.CreatedAt := models.CreatedAt node;
     models.UpdatedAt := models.UpdatedAt node |}.

(** N1 of the scenario, its metrics as exact numbers. *)
Definition exactN1 : models.Node Q :=
  models.mkNode 1%N "N1" 0%Q 0%Q "http://N1" 100 "healthy" 10%Q 10%Q 0 None 0 0.

(** The monotonicity of the score in the connection count, run in binary64
    on a grid of loads: capacities 1, 3 and 100, cpu and memory at 0, 33 and
    100, and every pair of connection counts from -2 to 40. *)
Definition monotone_on_grid : bool :=
  let counts := map (fun n => Z.of_nat n - 2) (seq 0 43) in
  forallb (fun cap =>
    forallb (fun cpu =>
      forallb (fun mem =>
        let node := models.mkNode 1%N "N" (f_int 0) (f_int 0) "http://N" cap "healthy"
                      (f_int cpu) (f_int mem) 0 None 0 0 in
        forallb (fun c1 =>
          forallb (fun c2 =>
            implb (c1 <=? c2)%Z
              (PrimFloat.leb (routing.CalculateLoadScore (withActiveConnections node c1))
                 (routing.CalculateLoadScore (withActiveConnections node c2))))
            counts)
          counts)
        [0; 33; 100])
      [0; 33; 100])
    [1; 3; 100].

(** Registration requests. *)
Module registration.
Definition admin : api.AdminHandler float := api.mkAdminHandler (db.mkDatabase [] None).
Definition public : api.PublicHandler float :=
  api.mkPublicHandler (db.mkDatabase [] None) (scenario.service []).
Definition env : Env := mkEnv 42%N 1700000000 true.
Definition create (capacity : Z) : api.CreateNodeRequest float :=
  api.mkCreateNodeRequest "edge-1" scenario.at_1_1 "http://edge-1:8080" capacity.
Definition register (name endpoint : string) : api.RegisterNodeRequest float :=
  api.mkRegisterNodeRequest name scenario.at_1_1 endpoint.
Definition created (capacity : Z) : models.Node float :=
  models.mkNode 42%N "edge-1" (f_int 1) (f_int 1) "http://edge-1:8080" capacity
    "inactive" (f_lit 0) (f_lit 0) 0 None 1700000000 1700000000.
End registration.

(** The only message the monitor builds. *)
Definition mock_update {F : Type} `{Arith F} (msg : websocket.Message F) : Prop :=
  websocket.Type_ msg = "node_health_updated" /\
  exists id t,
    websocket.Data_ msg = websocket.HealthData id "Mock Node" "healthy" (f_lit 45.5) (f_lit 67.8) 23 t.

(** The monitor over a node that answers no probe. *)
Module probing.
(** N4 is active and its endpoint answers no probe; the failure threshold
    is the default, 3. *)
Definition N4 := scenario.row 4%N "N4" 5 5 100 "active" 0 0 0.
Definition FailureThreshold : nat := 3.
Definition monitor : health.Monitor float :=
  health.mkMonitor (db.mkDatabase [N4] None) 30.
Definition envs (tick i : nat) : Env :=
  mkEnv (N.of_nat (100 + tick)) (1700000000 + 30 * Z.of_nat tick) true.
Definition mock (tick : nat) : websocket.Message float :=
  websocket.mkMessage "node_health_updated"
    (websocket.HealthData (N.of_nat (100 + tick)) "Mock Node" "healthy"
       (f_lit 45.5) (f_lit 67.8) 23 (1700000000 + 30 * Z.of_nat tick)).
End probing.

(** Not a finite number: NaN or an infinity. *)
Definition nonfinite (x : spec_float) : Prop :=
  x = S754_nan \/ exists s, x = S754_infinity s.

(** A row of capacity 0 (a NULL capacity reads as 0). *)
Definition N5 : db.Node float := scenario.row 5%N "N5" 2 2 0 "healthy" 10 10 0.

(** ** The order of binary64 values

    [key3] sends the values that are not NaN to triples of integers that
    [lt3], the lexicographic order, compares as [<] compares the values. *)

Definition lt3 (a b : Z * Z * Z) : bool :=
  let '(a1, a2, a3) := a in
  let '(b1, b2, b3) := b in
  (a1 <? b1)%Z || ((a1 =? b1)%Z && ((a2 <? b2)%Z || ((a2 =? b2)%Z && (a3 <? b3)%Z))).

Definition key3 (x : spec_float) : Z * Z * Z :=
  match x with
  | S754_zero _ => (0, 0, 0)
  | S754_infinity s => (if s then -2 else 2, 0, 0)
  | S754_nan => (0, 0, 0)
  | S754_finite s m e => if s then (-1, - e, Zneg m) else (1, e, Zpos m)
  end.

(** [less] is a strict weak order on the values that satisfy [P]. *)
Definition swo_on {A : Type} (P : A -> Prop) (less : A -> A -> bool) : Prop :=
  (forall a, P a -> less a a = false) /\
  (forall a b c, P a -> P b -> P c -> less a b = true -> less b c = true -> less a c = true) /\
  (forall a b c, P a -> P b -> P c -> less a b = false -> less b c = false -> less a c = false).

Ltac lt3_cases :=
  repeat match goal with
  | H : context [(?a <? ?b)%Z] |- _ => destruct (Z.ltb_spec a b)
  | H : context [(?a =? ?b)%Z] |- _ => destruct (Z.eqb_spec a b)
  | |- context [(?a <? ?b)%Z] => destruct (Z.ltb_spec a b)
  | |- context [(?a =? ?b)%Z] => destruct (Z.eqb_spec a b)
  end; simpl in *; try reflexivity; try discriminate; try lia.

(** [u] and [v] are opposite, or both the zero [+0]. *)
Definition opposite (u v : spec_float) : Prop :=
  v = SFopp u \/ (u = S754_zero false /\ v = S754_zero false).

(** A number that is not negative: [+0], a positive finite number or
    [+infinity]. *)
Definition nonneg_sf (x : spec_float) : Prop :=
  x = S754_zero false \/ (exists m e, x = S754_finite false m e) \/ x = S754_infinity false.

(** Zero or finite. *)
Definition finite_sf (x : spec_float) : Prop :=
  (exists s, x = S754_zero s) \/ exists s m e, x = S754_finite s m e.

(** Of sign [s], and not NaN. *)
Definition signed_sf (s : bool) (x : spec_float) : Prop :=
  x = S754_zero s \/ (exists m e, x = S754_finite s m e) \/ x = S754_infinity s.

(** [sort.Slice] compares elements of the slice only: the result is ordered
    as soon as [less] is a strict weak order on them. *)
Class SliceSorterLocal `{SliceSorter} : Prop :=
  sortSlice_ordered_on : forall (A : Type) (less : A -> A -> bool) (l : list A),
    swo_on (fun a => In a l) less -> ordered less (sortSlice less l).

(** The distance that [FindKNearestNodes] sorts a node by. *)
Definition distanceTo {F : Type} `{Arith F} `{Sqrt F} (x y : F) (node : models.Node F) : F :=
  routing.CalculateDistance x y (models.LocationX node) (models.LocationY node).

(** ** package api: the handlers that list the nodes *)

Module listing.
Section Handlers.
Context {F : Type} `{Arith F}.

Inductive ListBody : Type :=
| ListErrorJSON (msg : string)
| NullJSON
| NodesJSON (nodes : list (models.Node F)).

Record ListResponse : Type := mkListResponse { lcode : Z; lbody : ListBody }.

(** GET /api/v1/nodes *)
Definition PublicHandler_GetNodes (h : api.PublicHandler F) : ListResponse :=
  match routing.GetAllNodes (api.router h) with
  | (_, Some _) => mkListResponse api.StatusInternalServerError (ListErrorJSON "Failed to fetch nodes")
  | (Some nodes, None) => mkListResponse api.StatusOK (NodesJSON nodes)
  | (None, None) => mkListResponse api.StatusOK NullJSON
  end.

(** GET /admin/api/v1/nodes *)
Definition AdminHandler_GetAllNodes (h : api.AdminHandler F) : ListResponse :=
  (* This would get all nodes from database; for now, return empty list *)
  mkListResponse api.StatusOK (NodesJSON []).
End Handlers.
Arguments ListResponse : clear implicits.
Arguments ListBody : clear implicits.
End listing.

(** A node placed at finite coordinates. *)
Definition finite_location (node : models.Node float) : Prop :=
  PrimFloat.is_finite (models.LocationX node) = true /\
  PrimFloat.is_finite (models.LocationY node) = true.

(** The nodes of the scenario, in the order the registry lists them. *)
Definition scenario_nodes : list (models.Node float) :=
  map routing.convertDBNodeToModel [scenario.N3; scenario.N2; scenario.N1].

(** ** The statements of db/queries/nodes.sql that write *)

(** What a [VARCHAR(n)] column keeps of a text; [None] when the database
    rejects the value. *)
Class Varchar := varchar : nat -> string -> option string.

Definition is_ascii_char (c : ascii) : bool :=
  match c with Ascii _ _ _ _ _ _ _ b7 => negb b7 end.

Fixpoint is_ascii (s : string) : bool :=
  match s with
  | EmptyString => true
  | String c rest => is_ascii_char c && is_ascii rest
  end.

(** A text of at most [n] ASCII characters is stored as it is. *)
Class VarcharLaws `{Varchar} : Prop :=
  varchar_ascii : forall (n : nat) (s : string),
    is_ascii s = true -> (String.length s <= n)%nat -> varchar n s = Some s.

(** Columns that take ASCII text within the length and nothing else. *)
#[export] Instance AsciiColumns : Varchar :=
  fun n s => if is_ascii s && (String.length s <=? n)%nat then Some s else None.

Module queries.
Section Nodes.
Context {F : Type} `{Arith F} `{Varchar}.

Definition ErrNoRows : error := "no rows in result set".
Definition ErrTooLong : error := "value too long for type character varying".
Definition ErrDuplicateKey : error := "duplicate key value violates unique constraint".

Definition has_id (id : UUID) (row : db.Node F) : bool := N.eqb (db.ID row) id.

(** An optional text assigned to a [VARCHAR(n)] column: NULL stays NULL. *)
Definition varchar_opt (n : nat) (v : option string) : option (option string) :=
  match v with
  | None => Some None
  | Some s => match varchar n s with Some s' => Some (Some s') | None => None end
  end.

(** [SELECT * FROM nodes WHERE id = $1] *)
Definition GetNodeByID (d : db.Database F) (id : UUID) : db.Node F + error :=
  match db.fault d with
  | Some e => inr e
  | None =>
      match find (has_id id) (db.nodes d) with
      | Some row => inl row
      | None => inr ErrNoRows
      end
  end.

Record CreateNodeParams : Type := mkCreateNodeParams {
  cpName : string;
  cpLocationX : F;
  cpLocationY : F;
  cpEndpoint : string;
  cpCapacity : option Z;
  cpStatus : option string
}.

(** The place of a new row in the order [created_at DESC] (NULLs first): after
    the rows created later.  Among rows created at the same instant SQL fixes
    no order; the new row is put first. *)
Fixpoint insertByCreated (now : Time) (row : db.Node F) (rows : list (db.Node F))
  : list (db.Node F) :=
  match rows with
  | [] => [row]
  | r :: rest =>
      let later := match db.CreatedAt r with
                   | None => true
                   | Some t => (now <? t)%Z
                   end in
      if later then r :: insertByCreated now row rest else row :: rows
  end.

(** [INSERT INTO nodes (name, location_x, location_y, endpoint, capacity, status)
     VALUES ($1, $2, $3, $4, $5, $6) RETURNING *]: the other columns take
    their defaults, [id] from [gen_random_uuid()] and the timestamps from
    [NOW()]. *)
Definition CreateNode (d : db.Database F) (env : Env) (arg : CreateNodeParams)
  : db.Database F * (db.Node F + error) :=
  match db.fault d with
  | Some e => (d, inr e)
  | None =>
      match varchar 255 (cpName arg), varchar 255 (cpEndpoint arg),
            varchar_opt 20 (cpStatus arg) with
      | Some name, Some endpoint, Some status =>
          if existsb (has_id (newUUID env)) (db.nodes d) then (d, inr ErrDuplicateKey)
          else
            let row :=
              {| db.ID := newUUID env; db.Name := name;
                 db.LocationX := cpLocationX arg; db.LocationY := cpLocationY arg;
                 db.Endpoint := endpoint;
                 db.Capacity := cpCapacity arg; db.Status := status;
                 db.CpuUsage := Some (f_lit 0); db.MemoryUsage := Some (f_lit 0);
                 db.ActiveConnections := Some 0;
                 db.LastHealthCheck := None;
                 db.CreatedAt := Some (now env); db.UpdatedAt := Some (now env) |} in
            (db.mkDatabase (insertByCreated (now env) row (db.nodes d)) None, inl row)
      | _, _, _ => (d, inr ErrTooLong)
      end
  end.

Record UpdateNodeHealthParams : Type := mkUpdateNodeHealthParams {
  uhID : UUID;
  uhStatus : option string;
  uhCpuUsage : option F;
  uhMemoryUsage : option F;
  uhActiveConnections : option Z;
  uhLastHealthCheck : option Time
}.

Definition setHealth (now : Time) (status : option string) (arg : UpdateNodeHealthParams)
    (row : db.Node F) : db.Node F :=
  {| db.ID := db.ID row; db.Name := db.Name row;
     db.LocationX := db.LocationX row; db.LocationY := db.LocationY row;
     db.Endpoint := db.Endpoint row; db.Capacity := db.Capacity row;
     db.Status := status;
     db.CpuUsage := uhCpuUsage arg; db.MemoryUsage := uhMemoryUsage arg;
     db.ActiveConnections := uhActiveConnections arg;
     db.LastHealthCheck := uhLastHealthCheck arg;
     db.CreatedAt := db.CreatedAt row; db.UpdatedAt := Some now |}.

(** [UPDATE nodes SET status = $2, cpu_usage = $3, memory_usage = $4,
     active_connections = $5, last_health_check = $6, updated_at = NOW()
     WHERE id = $1 RETURNING *] *)
Definition UpdateNodeHealth (d : db.Database F) (env : Env) (arg : UpdateNodeHealthParams)
  : db.Database F * (db.Node F + error) :=
  match db.fault d with
  | Some e => (d, inr e)
  | None =>
      match find (has_id (uhID arg)) (db.nodes d) with
      | None => (d, inr ErrNoRows)
      | Some row =>
          match varchar_opt 20 (uhStatus arg) with
          | None => (d, inr ErrTooLong)
          | Some status =>
              let set := setHealth (now env) status arg in
              (db.mkDatabase
                 (map (fun r => if has_id (uhID arg) r then set r else r) (db.nodes d)) None,
               inl (set row))
          end
      end
  end.

Record UpdateNodeParams : Type := mkUpdateNodeParams {
  upID : UUID;
  upName : string;
  upLocationX : F;
  upLocationY : F;
  upEndpoint : string;
  upCapacity : option Z;
  upStatus : option string;
  upCpuUsage : option F;
  upMemoryUsage : option F;
  upActiveConnections : option Z;
  upLastHealthCheck : option Time
}.

Definition setNode (now : Time) (name endpoint : string) (status : option string)
    (arg : UpdateNodeParams) (row : db.Node F) : db.Node F :=
  {| db.ID := db.ID row; db.Name := name;
     db.LocationX := upLocationX arg; db.LocationY := upLocationY arg;
     db.Endpoint := endpoint; db.Capacity := upCapacity arg;
     db.Status := status;
     db.CpuUsage := upCpuUsage arg; db.MemoryUsage := upMemoryUsage arg;
     db.ActiveConnections := upActiveConnections arg;
     db.LastHealthCheck := upLastHealthCheck arg;
     db.CreatedAt := db.CreatedAt row; db.UpdatedAt := Some now |}.

(** [UPDATE nodes SET name = $2, location_x = $3, location_y = $4,
     endpoint = $5, capacity = $6, status = $7, cpu_usage = $8,
     memory_usage = $9, active_connections = $10, last_health_check = $11,
     updated_at = NOW() WHERE id = $1 RETURNING *] *)
Definition UpdateNode (d : db.Database F) (env : Env) (arg : UpdateNodeParams)
  : db.Database F * (db.Node F + error) :=
  match db.fault d with
  | Some e => (d, inr e)
  | None =>
      match find (has_id (upID arg)) (db.nodes d) with
      | None => (d, inr ErrNoRows)
      | Some row =>
          match varchar 255 (upName arg), varchar 255 (upEndpoint arg),
                varchar_opt 20 (upStatus arg) with
          | Some name, Some endpoint, Some status =>
              let set := setNode (now env) name endpoint status arg in
              (db.mkDatabase
                 (map (fun r => if has_id (upID arg) r then set r else r) (db.nodes d)) None,
               inl (set row))
          | _, _, _ => (d, inr ErrTooLong)
          end
      end
  end.

(** [DELETE FROM nodes WHERE id = $1] *)
Definition DeleteNode (d : db.Database F) (id : UUID) : db.Database F * option error :=
  match db.fault d with
  | Some e => (d, Some e)
  | None =>
      (db.mkDatabase (filter (fun r => negb (has_id id r)) (db.nodes d)) None, None)
  end.

(** The primary key: no two rows share an [id]. *)
Definition primary_key (d : db.Database F) : Prop := NoDup (map (@db.ID F) (db.nodes d)).
End Nodes.
Arguments CreateNodeParams : clear implicits.
Arguments UpdateNodeHealthParams : clear implicits.
Arguments UpdateNodeParams : clear implicits.
End queries.

(** The registry of the scenario under a health report and an insertion. *)
Module upkeep.
Definition registry : db.Database float :=
  db.mkDatabase [scenario.N3; scenario.N2; scenario.N1] None.
Definition env : Env := mkEnv 77%N 1700000100 true.
(** N2 reported unhealthy. *)
Definition report : queries.UpdateNodeHealthParams float :=
  queries.mkUpdateNodeHealthParams 2%N (Some "unhealthy") (Some (f_int 99)) (Some (f_int 95))
    (Some 100) (Some 1700000100).
Definition N2' : db.Node float :=
  queries.setHealth 1700000100 (Some "unhealthy") report scenario.N2.
Definition registry' : db.Database float :=
  db.mkDatabase [scenario.N3; N2'; scenario.N1] None.
(** A node to insert. *)
Definition params : queries.CreateNodeParams float :=
  queries.mkCreateNodeParams "N7" (f_int 3) (f_int 4) "http://N7" (Some 50) (Some "healthy").
Definition N7 : db.Node float :=
  db.mkNode 77%N "N7" (f_int 3) (f_int 4) "http://N7" (Some 50) (Some "healthy")
    (Some (f_lit 0)) (Some (f_lit 0)) (Some 0) None (Some 1700000100) (Some 1700000100).
End upkeep.

(** ** admin-ui: stores/useNodeStore.ts *)

Module useNodeStore.
Section Store.
Context {F : Type}.

(** [Node] of types/api.ts; [number] fields are of type [F]. *)
Record Node : Type := mkNode {
  id : string;
  name : string;
  location_x : F;
  location_y : F;
  endpoint : string;
  capacity : F;
  status : string;
  cpu_usage : F;
  memory_usage : F;
  active_connections : F;
  last_health_check : option string;
  created_at : string;
  updated_at : string
}.

(** [Partial<Node>]: a field is present ([Some]) or absent. *)
Record PartialNode : Type := mkPartialNode {
  p_id : option string;
  p_name : option string;
  p_location_x : option F;
  p_location_y : option F;
  p_endpoint : option string;
  p_capacity : option F;
  p_status : option string;
  p_cpu_usage : option F;
  p_memory_usage : option F;
  p_active_connections : option F;
  p_last_health_check : option string;
  p_created_at : option string;
  p_updated_at : option string
}.

Record NodeState : Type := mkNodeState {
  nodes : list Node;
  selectedNode : option Node;
  loading : bool
}.

Definition initial : NodeState := mkNodeState [] None false.

Definition setNodes (ns : list Node) (s : NodeState) : NodeState :=
  mkNodeState ns (selectedNode s) (loading s).
Definition setSelectedNode (n : option Node) (s : NodeState) : NodeState :=
  mkNodeState (nodes s) n (loading s).
Definition setLoading (l : bool) (s : NodeState) : NodeState :=
  mkNodeState (nodes s) (selectedNode s) l.

(** The asynchronous actions, from the state they start in to the state they
    leave when the API call has settled with [outcome] (no other action of
    the store runs in between); the second component is the error they
    rethrow. *)
Definition fetchNodes (outcome : list Node + string) (s : NodeState)
  : NodeState * option string :=
  let s := setLoading true s in
  match outcome with
  | inl ns => (mkNodeState ns (selectedNode s) false, None)
  | inr _ => (setLoading false s, None)
  end.

Definition createNode (outcome : Node + string) (s : NodeState)
  : NodeState * option string :=
  let s := setLoading true s in
  match outcome with
  | inl newNode => (mkNodeState (nodes s ++ [newNode]) (selectedNode s) false, None)
  | inr error => (setLoading false s, Some error)
  end.

Definition updateNode (id0 : string) (outcome : Node + string) (s : NodeState)
  : NodeState * option string :=
  let s := setLoading true s in
  match outcome with
  | inl updatedNode =>
      (mkNodeState
         (map (fun node => if String.eqb (id node) id0 then updatedNode else node) (nodes s))
         (selectedNode s) false, None)
  | inr error => (setLoading false s, Some error)
  end.

Definition deleteNode (id0 : string) (outcome : unit + string) (s : NodeState)
  : NodeState * option string :=
  let s := setLoading true s in
  match outcome with
  | inl _ =>
      (mkNodeState (filter (fun node => negb (String.eqb (id node) id0)) (nodes s))
         (selectedNode s) false, None)
  | inr error => (setLoading false s, Some error)
  end.

Definition override {A : Type} (old : A) (new : option A) : A :=
  match new with Some v => v | None => old end.

(** The object spread of a node and a partial node. *)
Definition spread (node : Node) (data : PartialNode) : Node :=
  {| id := override (id node) (p_id data);
     name := override (name node) (p_name data);
     location_x := override (location_x node) (p_location_x data);
     location_y := override (location_y node) (p_location_y data);
     endpoint := override (endpoint node) (p_endpoint data);
     capacity := override (capacity node) (p_capacity data);
     status := override (status node) (p_status data);
     cpu_usage := override (cpu_usage node) (p_cpu_usage data);
     memory_usage := override (memory_usage node) (p_memory_usage data);
     active_connections := override (active_connections node) (p_active_connections data);
     last_health_check :=
       match p_last_health_check data with
       | Some v => Some v
       | None => last_health_check node
       end;
     created_at := override (created_at node) (p_created_at data);
     updated_at := override (updated_at node) (p_updated_at data) |}.

(** [node.id === data.id]: false when [data] has no id. *)
Definition same_id (node : Node) (data : PartialNode) : bool :=
  match p_id data with
  | Some i => String.eqb (id node) i
  | None => false
  end.

Definition updateNodeFromWS (data : PartialNode) (s : NodeState) : NodeState :=
  mkNodeState (map (fun node => if same_id node data then spread node data else node) (nodes s))
    (selectedNode s) (loading s).
End Store.
Arguments Node : clear implicits.
Arguments PartialNode : clear implicits.
Arguments NodeState : clear implicits.
End useNodeStore.

(** A store of two nodes with N2 selected. *)
Module dashboard.
Import useNodeStore.
Definition n1 : Node Q := mkNode "a1" "N1" 0%Q 0%Q "http://N1" 100%Q "healthy" 10%Q 10%Q 0%Q None "t0" "t0".
Definition n2 : Node Q := mkNode "b2" "N2" 10%Q 10%Q "http://N2" 100%Q "healthy" 90%Q 90%Q 90%Q None "t0" "t0".
Definition n3 : Node Q := mkNode "c3" "N3" 1%Q 1%Q "http://N3" 100%Q "inactive" 0%Q 0%Q 0%Q None "t1" "t1".
Definition state : NodeState Q := mkNodeState [n1; n2] (Some n2) false.
(** The health update of a websocket message for [b2]. *)
Definition update : PartialNode Q :=
  mkPartialNode (Some "b2") None None None None None (Some "unhealthy") (Some 99%Q) (Some 95%Q)
    (Some 100%Q) (Some "t2") None None.
End dashboard.

(** ** admin-ui: services/api.ts, [WebSocketService] *)

Module WebSocketService.
(** A callback is known by the identity of its function object. *)
Definition Callback : Type := nat.

(** [listeners] is the [Map] from a message type to its array of callbacks,
    in the order of insertion; [ws] is the URL of the socket, if any. *)
Record Service : Type := mkService {
  ws : option string;
  listeners : list (string * list Callback)
}.

Definition initial : Service := mkService None [].

(** [Map.get] *)
Fixpoint get (type : string) (m : list (string * list Callback)) : option (list Callback) :=
  match m with
  | [] => None
  | (k, v) :: rest => if String.eqb k type then Some v else get type rest
  end.

(** [Map.has] *)
Definition has (type : string) (m : list (string * list Callback)) : bool :=
  match get type m with Some _ => true | None => false end.

(** [Map.set] of a key the map has not: the entry goes last. *)
Definition set_new (type : string) (v : list Callback) (m : list (string * list Callback))
  : list (string * list Callback) := (m ++ [(type, v)])%list.

(** The array held at [type] is mutated in place by [f]. *)
Fixpoint mutate (type : string) (f : list Callback -> list Callback)
    (m : list (string * list Callback)) : list (string * list Callback) :=
  match m with
  | [] => []
  | (k, v) :: rest =>
      if String.eqb k type then (k, f v) :: rest else (k, v) :: mutate type f rest
  end.

(** [Array.indexOf] *)
Fixpoint indexOf (cb : Callback) (cbs : list Callback) : option nat :=
  match cbs with
  | [] => None
  | c :: rest => if Nat.eqb c cb then Some O else option_map S (indexOf cb rest)
  end.

(** [Array.splice(index, 1)] *)
Definition splice1 (index : nat) (cbs : list Callback) : list Callback :=
  (firstn index cbs ++ skipn (S index) cbs)%list.

Definition subscribe (type : string) (callback : Callback) (s : Service) : Service :=
  let m := if has type (listeners s) then listeners s else set_new type [] (listeners s) in
  mkService (ws s) (mutate type (fun cbs => (cbs ++ [callback])%list) m).

(** The function that [subscribe type callback] returns. *)
Definition unsubscribe (type : string) (callback : Callback) (s : Service) : Service :=
  match get type (listeners s) with
  | Some callbacks =>
      match indexOf callback callbacks with
      | Some index => mkService (ws s) (mutate type (splice1 index) (listeners s))
      | None => s
      end
  | None => s
  end.

Definition disconnect (s : Service) : Service := mkService None [].

Definition connect (url : string) (s : Service) : Service :=
  let s := disconnect s in
  mkService (Some url) (listeners s).

(** [onmessage]: the calls made for an event, in order.  [parsed] is the type
    and the data of the message, [None] when [JSON.parse] throws.  The
    callbacks are taken to return normally and to leave the subscriptions
    alone while they run. *)
Definition onmessage {D : Type} (parsed : option (string * D)) (s : Service)
  : list (Callback * D) :=
  match parsed with
  | None => []
  | Some (type, data) =>
      match get type (listeners s) with
      | Some cbs => map (fun cb => (cb, data)) cbs
      | None => []
      end
  end.

(** The callbacks subscribed to [type]. *)
Definition subscribed (type : string) (s : Service) : list Callback :=
  match get type (listeners s) with Some cbs => cbs | None => [] end.
End WebSocketService.

(** * Properties *)

(** ** Insertion sort meets the contract of [sort.Slice]. *)

Section InsertionSort.
Context {A : Type} (less : A -> A -> bool).

Lemma insertLeft_perm a l : Permutation (insertLeft less a l) (a :: l).
Proof.
  induction l as [|b rest IH]; simpl; [reflexivity|].
  destruct (less a b); [|reflexivity].
  rewrite IH. apply perm_swap.
Qed.

Lemma insertionSort_perm l : Permutation (insertionSort less l) l.
Proof.
  unfold insertionSort.
  assert (G : forall acc,
    Permutation (fold_left (fun s a => insertLeft less a s) l acc) (l ++ acc)%list).
  { induction l as [|a l' IH]; intros acc; simpl; [reflexivity|].
    rewrite IH. rewrite insertLeft_perm. apply Permutation_sym, Permutation_middle. }
  rewrite <- Permutation_rev, G, app_nil_r. reflexivity.
Qed.

Hypothesis less_swo : strict_weak less.

Lemma less_asym a b : less a b = true -> less b a = false.
Proof.
  destruct less_swo as (irr & tr & _). intros ab.
  destruct (less b a) eqn:ba; [|reflexivity].
  rewrite <- (irr a). symmetry. now apply tr with b.
Qed.

Lemma insertLeft_ordered a l : orderedRev less l -> orderedRev less (insertLeft less a l).
Proof.
  destruct less_swo as (_ & _ & ntr).
  induction 1 as [|b l Hb Hl IH]; simpl.
  - constructor; [constructor | constructor].
  - destruct (less a b) eqn:ab.
    + constructor; [|exact IH].
      apply (Permutation_Forall (Permutation_sym (insertLeft_perm a l))).
      constructor; [now apply less_asym | exact Hb].
    + constructor; [|now constructor].
      constructor; [exact ab|].
      eapply Forall_impl; [|exact Hb]. intros c bc. simpl in bc. now apply ntr with b.
Qed.

Lemma ordered_snoc l b :
  ordered less l -> Forall (fun a => less b a = false) l -> ordered less (l ++ [b]).
Proof.
  induction 1 as [|a l Ha Hl IH]; intros Hb; simpl.
  - constructor; constructor.
  - inversion Hb as [|? ? ba Hb']; subst.
    constructor; [|now apply IH].
    apply Forall_app; split; [exact Ha | now constructor].
Qed.

Lemma orderedRev_rev l : orderedRev less l -> ordered less (rev l).
Proof.
  induction 1 as [|b l Hb Hl IH]; simpl; [constructor|].
  apply ordered_snoc; [exact IH|].
  apply (Permutation_Forall (Permutation_rev l)), Hb.
Qed.

Lemma insertionSort_ordered l : ordered less (insertionSort less l).
Proof.
  unfold insertionSort. apply orderedRev_rev.
  assert (G : forall acc, orderedRev less acc ->
    orderedRev less (fold_left (fun s a => insertLeft less a s) l acc)).
  { induction l as [|a l' IH]; intros acc Hacc; simpl; [exact Hacc|].
    apply IH, insertLeft_ordered, Hacc. }
  apply G. constructor.
Qed.
End InsertionSort.

#[export] Instance InsertionSorter_laws : SliceSorterLaws (H := InsertionSorter).
Proof.
  split.
  - intros A less l. apply insertionSort_perm.
  - intros A less l swo. now apply insertionSort_ordered.
Qed.

Lemma flat_map_if {A B : Type} (p : A -> bool) (g : A -> B) (l : list A) :
  flat_map (fun a => if p a then [g a] else []) l = map g (filter p l).
Proof.
  induction l as [|a l IH]; simpl; [reflexivity|].
  rewrite IH. destruct (p a); reflexivity.
Qed.

Lemma firstn_In {A : Type} (n : nat) (l : list A) (a : A) :
  In a (firstn n l) -> In a l.
Proof.
  intros Ha. rewrite <- (firstn_skipn n l). apply in_or_app. now left.
Qed.

(** ** The routing engine, for every arithmetic and every sort. *)

Section RoutingFacts.
Context {F : Type} `{Arith F} `{Sqrt F} `{SliceSorterLaws}.
Import models routing.

Lemma candidates_filter (x y : F) (nodes : list (Node F)) :
  flat_map (fun node =>
    if String.eqb (Status node) "healthy" then
      let dist := CalculateDistance x y (LocationX node) (LocationY node) in
      [ {| nwdNode := node; Distance := dist |} ]
    else []) nodes
  = map (withDistance x y) (filter healthyb nodes).
Proof.
  exact (flat_map_if healthyb (withDistance x y) nodes).
Qed.

(** [FindKNearestNodes] as a sort followed by a prefix. *)
Lemma FindKNearestNodes_eq (nodes : list (Node F)) (x y : F) (k : Z) :
  FindKNearestNodes nodes x y k =
  if (k <? 0)%Z then Panic "makeslice: cap out of range"
  else Ret (map (@nwdNode F)
              (firstn (Z.to_nat k)
                 (sortSlice (fun a b => (Distance a <? Distance b)%f64)
                    (map (withDistance x y) (filter healthyb nodes))))).
Proof. unfold FindKNearestNodes. now rewrite candidates_filter. Qed.

Lemma sorted_candidates_perm (x y : F) (nodes : list (Node F)) :
  Permutation
    (map (@nwdNode F)
       (sortSlice (fun a b => (Distance a <? Distance b)%f64)
          (map (withDistance x y) (filter healthyb nodes))))
    (filter healthyb nodes).
Proof.
  rewrite (Permutation_map _ (sortSlice_perm _ _ _)).
  rewrite map_map. simpl. now rewrite map_id.
Qed.

Lemma FindKNearestNodes_returns (nodes : list (Node F)) (x y : F) (k : Z) :
  (0 <= k)%Z ->
  exists l, FindKNearestNodes nodes x y k = Ret l /\
    List.length l = Nat.min (Z.to_nat k) (List.length (filter healthyb nodes)) /\
    (forall n, In n l -> In n nodes /\ Status n = "healthy").
Proof.
  intros k0. rewrite FindKNearestNodes_eq.
  destruct (Z.ltb_spec k 0) as [|_]; [lia|].
  eexists; split; [reflexivity|]. split.
  - rewrite length_map, length_firstn.
    rewrite <- (Permutation_length (sorted_candidates_perm x y nodes)).
    now rewrite length_map.
  - intros n Hn.
    assert (Hs : In n (filter healthyb nodes)).
    { apply (Permutation_in _ (sorted_candidates_perm x y nodes)).
      rewrite in_map_iff in Hn |- *. destruct Hn as (w & <- & Hw).
      exists w. split; [reflexivity|]. eapply firstn_In; exact Hw. }
    apply filter_In in Hs. destruct Hs as [Hin Hh]. split; [exact Hin|].
    unfold healthyb in Hh. now apply String.eqb_eq.
Qed.

(** With [k] at least the number of healthy nodes, every healthy node is a
    candidate. *)
Lemma FindKNearestNodes_all (nodes : list (Node F)) (x y : F) (k : Z) :
  (Z.of_nat (List.length (filter healthyb nodes)) <= k)%Z ->
  exists l, FindKNearestNodes nodes x y k = Ret l /\
    Permutation l (filter healthyb nodes).
Proof.
  intros Hk. rewrite FindKNearestNodes_eq.
  destruct (Z.ltb_spec k 0) as [|_]; [lia|].
  eexists; split; [reflexivity|].
  rewrite firstn_all2; [apply sorted_candidates_perm|].
  rewrite (Permutation_length (sortSlice_perm _ _ _)), length_map. lia.
Qed.

Lemma selectLoop_In (rest : list (Node F)) (bestNode : Node F) (bestScore : F) :
  In (selectLoop bestNode bestScore rest) (bestNode :: rest).
Proof.
  revert bestNode bestScore.
  induction rest as [|n rest IH]; intros b sc; simpl; [now left|].
  destruct (calculateLoadScore n <? sc)%f64.
  - right. apply IH.
  - destruct (IH b sc) as [E|E]; [now left | right; now right].
Qed.

Lemma SelectBestNode_In (nodes : list (Node F)) :
  nodes <> [] -> In (SelectBestNode nodes) nodes.
Proof.
  destruct nodes as [|b rest]; [congruence|]. intros _. apply selectLoop_In.
Qed.

Lemma status_convert (row : db.Node F) :
  healthyb (convertDBNodeToModel row) = db.status_is "healthy" row.
Proof.
  unfold healthyb, db.status_is, convertDBNodeToModel; simpl.
  destruct (db.Status row); reflexivity.
Qed.

Lemma filter_convert (rows : list (db.Node F)) :
  filter healthyb (map convertDBNodeToModel rows)
  = map convertDBNodeToModel (filter (db.status_is "healthy") rows).
Proof.
  induction rows as [|r l IH]; simpl; [reflexivity|].
  rewrite status_convert. destruct (db.status_is "healthy" r); simpl; now rewrite IH.
Qed.

Lemma status_is_healthy (row : db.Node F) :
  db.status_is "healthy" row = true <-> db.Status row = Some "healthy".
Proof.
  unfold db.status_is. destruct (db.Status row) as [v|].
  - rewrite String.eqb_eq. split; congruence.
  - split; discriminate.
Qed.

(** [RouteRequest] on a working connection, by the healthy rows. *)
Lemma RouteRequest_eq (s : Service F) (requestID : string) (c : Location F) :
  db.fault (sdb s) = None ->
  RouteRequest s requestID c =
    (nearestNodes <-
       FindKNearestNodes
         (map convertDBNodeToModel (filter (db.status_is "healthy") (db.nodes (sdb s))))
         (X c) (Y c) 3 ;;
     if (List.length nearestNodes =? 0)%nat then Ret (None, None)
     else Ret (Some (SelectBestNode nearestNodes), None)).
Proof.
  intros Hf. unfold RouteRequest, db.GetHealthyNodes. now rewrite Hf.
Qed.

Lemma RouteRequest_healthy (s : Service F) (requestID : string) (c : Location F) :
  db.fault (sdb s) = None ->
  (exists row, In row (db.nodes (sdb s)) /\ db.Status row = Some "healthy") ->
  exists row,
    In row (db.nodes (sdb s)) /\ db.Status row = Some "healthy" /\
    RouteRequest s requestID c = Ret (Some (convertDBNodeToModel row), None).
Proof.
  intros Hf (r0 & Hin0 & Hs0).
  rewrite (RouteRequest_eq _ _ _ Hf).
  set (rows := filter (db.status_is "healthy") (db.nodes (sdb s))).
  assert (Hr0 : In r0 rows).
  { apply filter_In. split; [exact Hin0 | now apply status_is_healthy]. }
  destruct (FindKNearestNodes_returns (map convertDBNodeToModel rows) (X c) (Y c) 3)
    as (l & -> & Hlen & Hmem); [lia|].
  simpl.
  assert (Hne : l <> []).
  { intros ->. simpl in Hlen.
    rewrite filter_convert, length_map in Hlen.
    assert (Hidem : filter (db.status_is "healthy") rows = rows).
    { unfold rows. clear. induction (db.nodes (sdb s)) as [|a t IH]; simpl; [reflexivity|].
      destruct (db.status_is "healthy" a) eqn:E; simpl; [rewrite E; now rewrite IH | exact IH]. }
    rewrite Hidem in Hlen. destruct rows; [contradiction | simpl in Hlen; lia]. }
  destruct l as [|n0 l']; [congruence|]. simpl Nat.eqb. cbv iota.
  destruct (Hmem _ (SelectBestNode_In (n0 :: l') Hne)) as [Hin _].
  apply in_map_iff in Hin. destruct Hin as (row & Hrow & Hinrow).
  exists row. apply filter_In in Hinrow. destruct Hinrow as [Hin1 Hst].
  split; [exact Hin1|]. split; [now apply status_is_healthy|].
  now rewrite Hrow.
Qed.

Lemma RouteRequest_none (s : Service F) (requestID : string) (c : Location F) :
  db.fault (sdb s) = None ->
  (forall row, In row (db.nodes (sdb s)) -> db.Status row <> Some "healthy") ->
  RouteRequest s requestID c = Ret (None, None).
Proof.
  intros Hf Hno. rewrite (RouteRequest_eq _ _ _ Hf).
  assert (E : filter (db.status_is "healthy") (db.nodes (sdb s)) = []).
  { induction (db.nodes (sdb s)) as [|a t IH]; simpl; [reflexivity|].
    destruct (db.status_is "healthy" a) eqn:Ea.
    - exfalso. apply (Hno a); [now left | now apply status_is_healthy].
    - apply IH. intros row Hr. apply Hno. now right. }
  rewrite E. cbn [map]. rewrite FindKNearestNodes_eq. cbn [filter map Z.ltb Z.compare].
  assert (P := sortSlice_perm (NodeWithDistance F)
                 (fun a b => (Distance a <? Distance b)%f64) []).
  apply Permutation_sym, Permutation_nil in P. rewrite P. reflexivity.
Qed.
End RoutingFacts.

Section RoutingCandidates.
Context {F : Type} `{Arith F} `{Sqrt F} `{SliceSorterLaws}.
Import models routing.

Lemma filter_idem {A : Type} (p : A -> bool) (l : list A) :
  filter p (filter p l) = filter p l.
Proof.
  induction l as [|a t IH]; simpl; [reflexivity|].
  destruct (p a) eqn:E; simpl; [rewrite E; now rewrite IH | exact IH].
Qed.

(** The engine filters on [Status] again, so handing it the healthy rows
    or all rows gives the same candidates. *)
Lemma FindKNearestNodes_rows (rows : list (db.Node F)) (x y : F) (k : Z) :
  FindKNearestNodes
    (map convertDBNodeToModel (filter (db.status_is "healthy") rows)) x y k
  = FindKNearestNodes (map convertDBNodeToModel rows) x y k.
Proof.
  rewrite !FindKNearestNodes_eq, !filter_convert, filter_idem. reflexivity.
Qed.

Lemma FindKNearestNodes_two (nodes : list (Node F)) (x y : F) (k : Z) (a b : Node F) :
  Permutation (filter healthyb nodes) [a; b] -> (2 <= k)%Z ->
  FindKNearestNodes nodes x y k = Ret [a; b] \/
  FindKNearestNodes nodes x y k = Ret [b; a].
Proof.
  intros P Hk.
  destruct (FindKNearestNodes_all nodes x y k) as (l & -> & Pl).
  - rewrite (Permutation_length P). simpl. lia.
  - assert (P2 : Permutation [a; b] l)
      by (apply Permutation_sym; now rewrite Pl).
    destruct (Permutation_length_2_inv P2) as [-> | ->]; [now left | now right].
Qed.
End RoutingCandidates.

(** C1: while at least one healthy node is registered (and the registry can
    be read), [RouteRequest] returns a node of the healthy set: it is the
    model of a registered row whose status is [healthy], so a node whose
    status is [inactive], [active] or [unhealthy] is never selected. *)
Theorem route_returns_healthy_member
    {F : Type} `{Arith F} `{Sqrt F} `{SliceSorterLaws}
    (s : routing.Service F) (requestID : string) (coordinates : models.Location F) :
  db.fault (routing.sdb s) = None ->
  (exists row, In row (db.nodes (routing.sdb s)) /\ db.Status row = Some "healthy") ->
  exists row selected,
    routing.RouteRequest s requestID coordinates = Ret (Some selected, None) /\
    selected = routing.convertDBNodeToModel row /\
    In row (db.nodes (routing.sdb s)) /\
    db.Status row = Some "healthy" /\
    models.Status selected = "healthy" /\
    models.Status selected <> "inactive" /\
    models.Status selected <> "active" /\
    models.Status selected <> "unhealthy".
Proof.
  intros Hf Hex.
  destruct (RouteRequest_healthy s requestID coordinates Hf Hex) as (row & Hin & Hst & Hr).
  exists row, (routing.convertDBNodeToModel row).
  assert (Hs : models.Status (routing.convertDBNodeToModel row) = "healthy")
    by (simpl; now rewrite Hst).
  repeat split; try assumption; rewrite Hs; discriminate.
Qed.

Lemma route_returns_healthy_member_witness :
  exists row selected,
    routing.RouteRequest (scenario.service [scenario.N3; scenario.N2; scenario.N1])
      "req-1" scenario.at_1_1 = Ret (Some selected, None) /\
    selected = routing.convertDBNodeToModel row /\
    In row [scenario.N3; scenario.N2; scenario.N1] /\
    db.Status row = Some "healthy" /\
    models.Status selected = "healthy" /\
    models.Status selected <> "inactive" /\
    models.Status selected <> "active" /\
    models.Status selected <> "unhealthy".
Proof.
  apply (route_returns_healthy_member
           (scenario.service [scenario.N3; scenario.N2; scenario.N1])
           "req-1" scenario.at_1_1).
  - reflexivity.
  - exists scenario.N1. split; [simpl; tauto | reflexivity].
Defined.

(** C2: with no healthy candidate (in particular with no registered node at
    all) [RouteRequest] returns, without error and without panic, the
    no-node outcome [(nil, nil)]; the handler reports it as 503
    "No healthy nodes available", which differs from the 400 it gives to a
    request that fails binding. *)
Theorem route_unavailable_without_healthy
    {F : Type} `{Arith F} `{Sqrt F} `{SliceSorterLaws}
    (h : api.PublicHandler F) (env : Env) (req : api.RouteRequest F) :
  db.fault (routing.sdb (api.router h)) = None ->
  (forall row, In row (db.nodes (routing.sdb (api.router h))) ->
               db.Status row <> Some "healthy") ->
  routing.RouteRequest (api.router h) (api.RequestID req) (api.Coordinates req)
    = Ret (None, None) /\
  (api.validRouteRequest req = true ->
   api.PublicHandler_RouteRequest h env (Some req)
     = Ret (api.mkResponse api.StatusServiceUnavailable
              (api.ErrorJSON "No healthy nodes available"), [])) /\
  (forall malformed, api.ShouldBindJSON api.validRouteRequest malformed = None ->
   api.PublicHandler_RouteRequest h env malformed
     = Ret (api.mkResponse api.StatusBadRequest api.BindErrorJSON, [])) /\
  api.StatusServiceUnavailable <> api.StatusBadRequest.
Proof.
  intros Hf Hno.
  assert (R := RouteRequest_none (api.router h) (api.RequestID req) (api.Coordinates req) Hf Hno).
  split; [exact R|]. split; [|split].
  - intros Hv. unfold api.PublicHandler_RouteRequest, api.ShouldBindJSON.
    rewrite Hv, R. reflexivity.
  - intros malformed Hm. unfold api.PublicHandler_RouteRequest. now rewrite Hm.
  - discriminate.
Qed.

Lemma route_unavailable_without_healthy_witness :
  let h := api.mkPublicHandler (db.mkDatabase [] None) (scenario.service []) in
  let req := api.mkRouteRequest "req-1" scenario.at_1_1 "" in
  routing.RouteRequest (api.router h) "req-1" scenario.at_1_1 = Ret (None, None) /\
  api.PublicHandler_RouteRequest h (mkEnv 7%N 1700000000 true) (Some req)
    = Ret (api.mkResponse api.StatusServiceUnavailable
             (api.ErrorJSON "No healthy nodes available"), []) /\
  api.PublicHandler_RouteRequest h (mkEnv 7%N 1700000000 true) None
    = Ret (api.mkResponse api.StatusBadRequest api.BindErrorJSON, []) /\
  api.StatusServiceUnavailable <> api.StatusBadRequest.
Proof.
  intros h req.
  destruct (route_unavailable_without_healthy h (mkEnv 7%N 1700000000 true) req)
    as (H1 & H2 & H3 & H4).
  - reflexivity.
  - simpl. intros row [].
  - split; [exact H1|]. split; [apply H2; vm_compute; reflexivity|].
    split; [apply H3; reflexivity | exact H4].
Defined.

(** C3: with exactly two healthy nodes, N1 at (0,0) (capacity 100, cpu 10,
    mem 10, no connection) and N2 at (10,10) (capacity 100, cpu 90, mem 90,
    90 connections), a request at (1,1) is given N1: by
    [FindKNearestNodes] with k = 2 followed by [SelectBestNode], and by
    [RouteRequest]; in binary64 arithmetic, whatever order the sort leaves
    the candidates in and whatever other rows the registry holds. *)
Theorem scenario_routes_to_N1 `{SliceSorterLaws}
    (rows : list (db.Node float)) (requestID : string) :
  Permutation (filter (db.status_is "healthy") rows) [scenario.N1; scenario.N2] ->
  (exists nearest,
     routing.FindKNearestNodes (map routing.convertDBNodeToModel rows)
       (f_int 1) (f_int 1) 2 = Ret nearest /\
     routing.SelectBestNode nearest = routing.convertDBNodeToModel scenario.N1) /\
  routing.RouteRequest (scenario.service rows) requestID scenario.at_1_1
    = Ret (Some (routing.convertDBNodeToModel scenario.N1), None).
Proof.
  intros P.
  assert (Pm : Permutation
                 (filter healthyb (map routing.convertDBNodeToModel rows))
                 [routing.convertDBNodeToModel scenario.N1;
                  routing.convertDBNodeToModel scenario.N2]).
  { rewrite filter_convert. exact (Permutation_map _ P). }
  split.
  - destruct (FindKNearestNodes_two _ (f_int 1) (f_int 1) 2 _ _ Pm) as [E | E];
      [lia | | ]; rewrite E; eexists; (split; [reflexivity|]);
      vm_compute; reflexivity.
  - rewrite RouteRequest_eq by reflexivity.
    unfold scenario.service, routing.sdb, db.nodes.
    rewrite FindKNearestNodes_rows.
    destruct (FindKNearestNodes_two _ (models.X scenario.at_1_1)
                (models.Y scenario.at_1_1) 3 _ _ Pm) as [E | E];
      [lia | | ]; rewrite E; vm_compute; reflexivity.
Qed.

Lemma scenario_routes_to_N1_witness :
  (exists nearest,
     routing.FindKNearestNodes
       (map routing.convertDBNodeToModel [scenario.N3; scenario.N2; scenario.N1])
       (f_int 1) (f_int 1) 2 = Ret nearest /\
     routing.SelectBestNode nearest = routing.convertDBNodeToModel scenario.N1) /\
  routing.RouteRequest (scenario.service [scenario.N3; scenario.N2; scenario.N1])
    "req-1" scenario.at_1_1
    = Ret (Some (routing.convertDBNodeToModel scenario.N1), None).
Proof.
  apply (scenario_routes_to_N1 [scenario.N3; scenario.N2; scenario.N1] "req-1").
  vm_compute. apply perm_swap.
Defined.

(** ** The load score *)

Lemma Qlit_100 : (100.0 == 100)%Q.
Proof. reflexivity. Qed.

Lemma exact_score_formula (node : models.Node Q) :
  (routing.CalculateLoadScore node ==
   spec_load_score (f_lit 0.4) (f_lit 0.3) (f_lit 0.3)
     (models.CPUUsage node) (models.MemoryUsage node)
     (models.ActiveConnections node) (models.Capacity node))%Q.
Proof.
  unfold routing.CalculateLoadScore, spec_load_score. cbn [f_add f_mul f_div f_lit f_int Exact].
  rewrite Qlit_100. reflexivity.
Qed.

Lemma Qdiv_le_compat (a b c : Q) : (0 < c -> a <= b -> a / c <= b / c)%Q.
Proof.
  intros Hc Hab. unfold Qdiv. apply Qmult_le_compat_r; [exact Hab|].
  apply Qlt_le_weak, Qinv_lt_0_compat, Hc.
Qed.

Lemma Qdiv_gt_1 (a c : Q) : (0 < c -> c < a -> 1 < a / c)%Q.
Proof.
  intros Hc Hca. apply Qlt_shift_div_l; [exact Hc|]. now rewrite Qmult_1_l.
Qed.





Lemma load_score_monotone_binary64_grid : monotone_on_grid = true.
Proof. vm_compute. reflexivity. Qed.

(** ** The number of candidates *)




(** ** Registration *)

(** A creation request with capacity 0 is answered 201 with a node of
    capacity 100, and one with capacity -5 is answered 201 with a node of
    capacity -5: neither fails validation, and the second node has a
    capacity that is not positive. *)
Lemma create_node_accepts_nonpositive_capacity :
  api.AdminHandler_CreateNode registration.admin registration.env
    (Some (registration.create 0))
  = (api.mkResponse api.StatusCreated (api.NodeJSON (registration.created 100)),
     [websocket.mkMessage "node_created" (websocket.NodeData (registration.created 100))]) /\
  api.AdminHandler_CreateNode registration.admin registration.env
    (Some (registration.create (-5)))
  = (api.mkResponse api.StatusCreated (api.NodeJSON (registration.created (-5))),
     [websocket.mkMessage "node_created" (websocket.NodeData (registration.created (-5)))]) /\
  ~ (0 < models.Capacity (registration.created (-5)))%Z.
Proof.
  split; [vm_compute; reflexivity|]. split; [vm_compute; reflexivity|].
  simpl. lia.
Qed.

Lemma required_string_empty : api.required_string "" = false.
Proof. reflexivity. Qed.

(** C6, as the code has it: a registration request whose name or endpoint
    is empty is answered 400 and produces no node and no message, on the
    admin and on the public route; capacity is not validated: a valid
    creation request is answered 201, with the default capacity 100 when its
    capacity is 0 and with its own capacity when that is positive, and the
    public route always gives capacity 100, so a node built from a request
    of capacity >= 0 has capacity > 0. *)
Theorem registration_validation
    {F : Type} `{Arith F}
    (a : api.AdminHandler F) (p : api.PublicHandler F) (env : Env)
    (creq : api.CreateNodeRequest F) (rreq : api.RegisterNodeRequest F) :
  (api.cnName creq = "" \/ api.cnEndpoint creq = "" ->
   api.AdminHandler_CreateNode a env (Some creq)
     = (api.mkResponse api.StatusBadRequest api.BindErrorJSON, [])) /\
  (api.rnName rreq = "" \/ api.rnEndpoint rreq = "" ->
   api.PublicHandler_RegisterNode p env (Some rreq)
     = (api.mkResponse api.StatusBadRequest api.BindErrorJSON, [])) /\
  (api.validCreateNodeRequest creq = true -> (0 <= api.cnCapacity creq)%Z ->
   exists node,
     api.AdminHandler_CreateNode a env (Some creq)
       = (api.mkResponse api.StatusCreated (api.NodeJSON node),
          [websocket.mkMessage "node_created" (websocket.NodeData node)]) /\
     models.Capacity node
       = (if (api.cnCapacity creq =? 0)%Z then 100 else api.cnCapacity creq) /\
     (0 < models.Capacity node)%Z /\
     models.Status node = "inactive") /\
  (api.validRegisterNodeRequest rreq = true ->
   exists node,
     api.PublicHandler_RegisterNode p env (Some rreq)
       = (api.mkResponse api.StatusCreated (api.NodeJSON node),
          [websocket.mkMessage "node_registered" (websocket.NodeData node)]) /\
     models.Capacity node = 100 /\
     models.Status node = "active").
Proof.
  split; [|split; [|split]].
  - intros E. unfold api.AdminHandler_CreateNode, api.ShouldBindJSON,
      api.validCreateNodeRequest.
    destruct E as [-> | ->]; rewrite required_string_empty;
      rewrite ?andb_false_r; reflexivity.
  - intros E. unfold api.PublicHandler_RegisterNode, api.ShouldBindJSON,
      api.validRegisterNodeRequest.
    destruct E as [-> | ->]; rewrite required_string_empty;
      rewrite ?andb_false_r; reflexivity.
  - intros Hv Hc. unfold api.AdminHandler_CreateNode, api.ShouldBindJSON. rewrite Hv.
    eexists. split; [reflexivity|]. cbn [models.Capacity models.Status].
    split; [reflexivity|]. split; [|reflexivity].
    destruct (Z.eqb_spec (api.cnCapacity creq) 0); lia.
  - intros Hv. unfold api.PublicHandler_RegisterNode, api.ShouldBindJSON. rewrite Hv.
    eexists. split; [reflexivity|]. split; reflexivity.
Qed.

Lemma registration_validation_witness :
  (api.AdminHandler_CreateNode registration.admin registration.env
     (Some (api.mkCreateNodeRequest "" scenario.at_1_1 "http://edge-1:8080" 50))
   = (api.mkResponse api.StatusBadRequest api.BindErrorJSON, [])) /\
  (api.PublicHandler_RegisterNode registration.public registration.env
     (Some (registration.register "edge-1" ""))
   = (api.mkResponse api.StatusBadRequest api.BindErrorJSON, [])) /\
  (exists node,
     api.AdminHandler_CreateNode registration.admin registration.env
       (Some (registration.create 0))
       = (api.mkResponse api.StatusCreated (api.NodeJSON node),
          [websocket.mkMessage "node_created" (websocket.NodeData node)]) /\
     models.Capacity node = 100 /\
     (0 < models.Capacity node)%Z /\
     models.Status node = "inactive") /\
  (exists node,
     api.PublicHandler_RegisterNode registration.public registration.env
       (Some (registration.register "edge-1" "http://edge-1:8080"))
       = (api.mkResponse api.StatusCreated (api.NodeJSON node),
          [websocket.mkMessage "node_registered" (websocket.NodeData node)]) /\
     models.Capacity node = 100 /\
     models.Status node = "active").
Proof.
  split; [|split; [|split]].
  - apply (registration_validation registration.admin registration.public registration.env
             (api.mkCreateNodeRequest "" scenario.at_1_1 "http://edge-1:8080" 50)
             (registration.register "edge-1" "")).
    left. reflexivity.
  - apply (registration_validation registration.admin registration.public registration.env
             (registration.create 0) (registration.register "edge-1" "")).
    right. reflexivity.
  - apply (registration_validation registration.admin registration.public registration.env
             (registration.create 0) (registration.register "edge-1" "")).
    + vm_compute. reflexivity.
    + simpl. lia.
  - apply (registration_validation registration.admin registration.public registration.env
             (registration.create 0) (registration.register "edge-1" "http://edge-1:8080")).
    vm_compute. reflexivity.
Defined.

(** ** The health monitor *)

Section MonitorFacts.
Context {F : Type} `{Arith F}.
Import health websocket.

Lemma checkNode_effect (m : Monitor F) (env : Env) (node : db.Node F) :
  fst (checkNode m env node) = m /\ Forall mock_update (snd (checkNode m env node)).
Proof.
  unfold checkNode. destruct (hubReady env); simpl; split; try reflexivity.
  - constructor; [|constructor]. split; [reflexivity|]. now eexists _, _.
  - constructor.
Qed.

Lemma checkEach_effect (rows : list (db.Node F)) (m : Monitor F) (envs : nat -> Env) (i : nat) :
  fst (checkEach m envs i rows) = m /\ Forall mock_update (snd (checkEach m envs i rows)).
Proof.
  revert m i. induction rows as [|node rest IH]; intros m i; simpl.
  - split; [reflexivity | constructor].
  - destruct (checkNode_effect m (envs i) node) as [E1 M1].
    destruct (checkNode m (envs i) node) as [m1 sent1]. simpl in E1, M1. subst m1.
    destruct (IH m (S i)) as [E2 M2].
    destruct (checkEach m envs (S i) rest) as [m2 sent2]. simpl in E2, M2 |- *.
    split; [exact E2 | now apply Forall_app].
Qed.

Lemma checkAllNodes_effect (m : Monitor F) (envs : nat -> Env) :
  fst (checkAllNodes m envs) = m /\ Forall mock_update (snd (checkAllNodes m envs)).
Proof.
  unfold checkAllNodes. destruct (db.GetAllNodes (mdb m)) as [nodes [e|]].
  - split; [reflexivity | constructor].
  - apply checkEach_effect.
Qed.

(** However many ticks pass, the monitor and the rows of its database are
    what they were, and every message sent reports status [healthy]. *)
Lemma Start_effect (m : Monitor F) (envs : nat -> nat -> Env) (ticks : nat) :
  fst (Start m envs ticks) = m /\ Forall mock_update (snd (Start m envs ticks)).
Proof.
  induction ticks as [|t [E1 M1]]; simpl.
  - split; [reflexivity | constructor].
  - destruct (Start m envs t) as [m1 sent1]. simpl in E1, M1. subst m1.
    destruct (checkAllNodes_effect m (envs t)) as [E2 M2].
    destruct (checkAllNodes m (envs t)) as [m2 sent2]. simpl in E2, M2 |- *.
    split; [exact E2 | now apply Forall_app].
Qed.
End MonitorFacts.


(** ** Capacity and the division of the score *)

Lemma is_finite_false (x : float) : nonfinite (Prim2SF x) -> PrimFloat.is_finite x = false.
Proof.
  intros Hx. unfold PrimFloat.is_finite, PrimFloat.is_nan, PrimFloat.is_infinity.
  rewrite !eqb_spec, abs_spec.
  destruct Hx as [-> | [s ->]]; [reflexivity|].
  destruct s; reflexivity.
Qed.

Lemma SF64div_zero (x : spec_float) : nonfinite (SF64div x (S754_zero false)).
Proof.
  destruct x as [s | s | | s m e]; simpl; unfold nonfinite; eauto.
Qed.

Lemma SF64mul_nonfinite (s : bool) (m : positive) (e : Z) (y : spec_float) :
  nonfinite y -> nonfinite (SF64mul (S754_finite s m e) y).
Proof.
  intros [-> | [sy ->]]; simpl; unfold nonfinite; eauto.
Qed.

Lemma SF64add_nonfinite (x y : spec_float) : nonfinite y -> nonfinite (SF64add x y).
Proof.
  intros [-> | [sy ->]]; destruct x as [s | s | | s m e]; simpl; unfold nonfinite; eauto.
  destruct s, sy; eauto.
Qed.

(** In binary64 a node of capacity 0 has no finite score: the connection
    term is a division by zero, NaN or an infinity, and stays so through the
    weighted sum. *)
Lemma zero_capacity_score (node : models.Node float) :
  models.Capacity node = 0 ->
  PrimFloat.is_finite (routing.CalculateLoadScore node) = false.
Proof.
  intros Hc. apply is_finite_false.
  unfold routing.CalculateLoadScore. rewrite Hc.
  cbn [f_add f_mul f_div f_int f_lit IEEE].
  rewrite add_spec. apply SF64add_nonfinite.
  rewrite mul_spec.
  assert (E3 : exists s m e, Prim2SF (float_of_Q 0.3) = S754_finite s m e)
    by (vm_compute; eauto).
  destruct E3 as (s & m & e & ->).
  apply SF64mul_nonfinite.
  rewrite div_spec.
  assert (E0 : Prim2SF (float_of_Z 0) = S754_zero false) by (vm_compute; reflexivity).
  rewrite E0. apply SF64div_zero.
Qed.

(** A registry whose only healthy row is [row] routes every request to it:
    nothing on the way looks at its capacity. *)
Lemma RouteRequest_single
    {F : Type} `{Arith F} `{Sqrt F} `{SliceSorterLaws}
    (row : db.Node F) (requestID : string) (c : models.Location F) :
  db.Status row = Some "healthy" ->
  routing.RouteRequest (routing.mkService (db.mkDatabase [row] None)) requestID c
    = Ret (Some (routing.convertDBNodeToModel row), None).
Proof.
  intros Hs.
  destruct (RouteRequest_healthy (routing.mkService (db.mkDatabase [row] None)) requestID c)
    as (r & Hin & _ & E); [reflexivity | exists row; split; [now left | exact Hs] |].
  destruct Hin as [<- | []]. exact E.
Qed.

(** C10: [CalculateLoadScore] divides active_connections by the capacity
    unguarded.  With capacity > 0 the division is well defined (the
    connection term times the capacity is the connection count, and the
    score is the spec's formula); with capacity 0 the binary64 result is not
    a finite number.  Nothing on the routing path checks the capacity: a
    healthy row of capacity 0 is selected and scored.  Registration does not
    exclude it either: [CreateNode] replaces only a capacity of exactly 0 by
    100 and passes a negative capacity through unmodified. *)
Theorem capacity_is_a_precondition `{SliceSorterLaws}
    (node : models.Node Q) (fnode : models.Node float) (row : db.Node float)
    (requestID : string) (c : models.Location float)
    (a : api.AdminHandler float) (env : Env) (creq : api.CreateNodeRequest float) :
  ((0 < models.Capacity node)%Z ->
   (connTerm node * inject_Z (models.Capacity node)
    == inject_Z (models.ActiveConnections node))%Q /\
   (routing.CalculateLoadScore node ==
    0.4 * (models.CPUUsage node / 100) + 0.3 * (models.MemoryUsage node / 100)
    + 0.3 * connTerm node)%Q) /\
  (models.Capacity fnode = 0 ->
   PrimFloat.is_finite (routing.CalculateLoadScore fnode) = false) /\
  (db.Status row = Some "healthy" -> db.Int32 (db.Capacity row) = 0 ->
   routing.RouteRequest (routing.mkService (db.mkDatabase [row] None)) requestID c
     = Ret (Some (routing.convertDBNodeToModel row), None) /\
   PrimFloat.is_finite (routing.CalculateLoadScore (routing.convertDBNodeToModel row))
     = false) /\
  (api.validCreateNodeRequest creq = true ->
   exists created,
     api.AdminHandler_CreateNode a env (Some creq)
       = (api.mkResponse api.StatusCreated (api.NodeJSON created),
          [websocket.mkMessage "node_created" (websocket.NodeData created)]) /\
     (api.cnCapacity creq = 0 -> models.Capacity created = 100) /\
     ((api.cnCapacity creq < 0)%Z -> models.Capacity created = api.cnCapacity creq)).
Proof.
  split; [|split; [|split]].
  - intros Hc. split.
    + unfold connTerm. cbn [f_div f_int Exact]. field.
      change 0%Q with (inject_Z 0). rewrite inject_Z_injective. lia.
    + rewrite exact_score_formula. unfold spec_load_score, connTerm.
      cbn [f_add f_mul f_div f_lit f_int Exact]. reflexivity.
  - apply zero_capacity_score.
  - intros Hs Hc. split; [now apply RouteRequest_single|].
    apply zero_capacity_score. exact Hc.
  - intros Hv. unfold api.AdminHandler_CreateNode, api.ShouldBindJSON. rewrite Hv.
    eexists. split; [reflexivity|]. cbn [models.Capacity].
    split; intros Hc.
    + now rewrite Hc.
    + destruct (Z.eqb_spec (api.cnCapacity creq) 0); [lia | reflexivity].
Qed.

Lemma capacity_is_a_precondition_witness :
  ((connTerm exactN1 * inject_Z (models.Capacity exactN1)
    == inject_Z (models.ActiveConnections exactN1))%Q /\
   (routing.CalculateLoadScore exactN1 ==
    0.4 * (models.CPUUsage exactN1 / 100) + 0.3 * (models.MemoryUsage exactN1 / 100)
    + 0.3 * connTerm exactN1)%Q) /\
  PrimFloat.is_finite
    (routing.CalculateLoadScore (routing.convertDBNodeToModel N5)) = false /\
  (routing.RouteRequest (routing.mkService (db.mkDatabase [N5] None)) "req-1" scenario.at_1_1
     = Ret (Some (routing.convertDBNodeToModel N5), None) /\
   PrimFloat.is_finite (routing.CalculateLoadScore (routing.convertDBNodeToModel N5))
     = false) /\
  (exists created,
     api.AdminHandler_CreateNode registration.admin registration.env
       (Some (registration.create (-5)))
       = (api.mkResponse api.StatusCreated (api.NodeJSON created),
          [websocket.mkMessage "node_created" (websocket.NodeData created)]) /\
     (api.cnCapacity (registration.create (-5)) = 0 -> models.Capacity created = 100) /\
     ((api.cnCapacity (registration.create (-5)) < 0)%Z ->
      models.Capacity created = api.cnCapacity (registration.create (-5)))).
Proof.
  destruct (capacity_is_a_precondition exactN1 (routing.convertDBNodeToModel N5) N5
              "req-1" scenario.at_1_1 registration.admin registration.env
              (registration.create (-5)))
    as (H1 & H2 & H3 & H4).
  split; [apply H1; simpl; lia|].
  split; [apply H2; reflexivity|].
  split; [apply H3; reflexivity|].
  apply H4. vm_compute. reflexivity.
Defined.

(** ** The order of binary64 values *)

Lemma SFltb_key (x y : spec_float) :
  x <> S754_nan -> y <> S754_nan -> SFltb x y = lt3 (key3 x) (key3 y).
Proof.
  intros Hx Hy. unfold SFltb, SFcompare.
  destruct x as [sx | sx | | sx mx ex]; try congruence;
  destruct y as [sy | sy | | sy my ey]; try congruence;
  try (destruct sx; try destruct sy; reflexivity);
  try (destruct sy; reflexivity).
  rewrite Pos.compare_cont_spec. simpl Pos.switch_Eq.
  destruct sx, sy; try reflexivity; unfold key3, lt3.
  - change (-1 <? -1)%Z with false. change (-1 =? -1)%Z with true. simpl orb. simpl andb.
    destruct (Z.compare_spec ex ey), (Pos.compare_spec mx my); simpl;
    repeat match goal with
    | |- context [(?a <? ?b)%Z] => destruct (Z.ltb_spec a b)
    | |- context [(?a =? ?b)%Z] => destruct (Z.eqb_spec a b)
    end; simpl; try reflexivity; try lia.
  - change (1 <? 1)%Z with false. change (1 =? 1)%Z with true. simpl orb. simpl andb.
    destruct (Z.compare_spec ex ey), (Pos.compare_spec mx my); simpl;
    repeat match goal with
    | |- context [(?a <? ?b)%Z] => destruct (Z.ltb_spec a b)
    | |- context [(?a =? ?b)%Z] => destruct (Z.eqb_spec a b)
    end; simpl; try reflexivity; try lia.
Qed.

Lemma lt3_strict_weak : strict_weak lt3.
Proof.
  repeat split.
  - intros [[a1 a2] a3]. unfold lt3. lt3_cases.
  - intros [[a1 a2] a3] [[b1 b2] b3] [[c1 c2] c3]. unfold lt3. intros H1 H2. lt3_cases.
  - intros [[a1 a2] a3] [[b1 b2] b3] [[c1 c2] c3]. unfold lt3. intros H1 H2. lt3_cases.
Qed.

Lemma is_nan_Prim2SF (x : float) :
  PrimFloat.is_nan x = false <-> Prim2SF x <> S754_nan.
Proof.
  unfold PrimFloat.is_nan. rewrite eqb_spec.
  destruct (Prim2SF x) as [s | s | | s m e]; unfold SFeqb, SFcompare; simpl.
  - split; [discriminate | reflexivity].
  - destruct s; (split; [discriminate | reflexivity]).
  - split; [discriminate | congruence].
  - rewrite Z.compare_refl, Pos.compare_cont_refl.
    destruct s; (split; [discriminate | reflexivity]).
Qed.

Lemma ltb_key (x y : float) :
  PrimFloat.is_nan x = false -> PrimFloat.is_nan y = false ->
  PrimFloat.ltb x y = lt3 (key3 (Prim2SF x)) (key3 (Prim2SF y)).
Proof.
  intros Hx Hy. rewrite ltb_spec. apply SFltb_key; now apply is_nan_Prim2SF.
Qed.

Lemma float_swo : swo_on (fun x => PrimFloat.is_nan x = false) PrimFloat.ltb.
Proof.
  destruct lt3_strict_weak as (irr & tr & ntr).
  repeat split.
  - intros a Ha. rewrite ltb_key by assumption. apply irr.
  - intros a b c Ha Hb Hc. rewrite !ltb_key by assumption. apply tr.
  - intros a b c Ha Hb Hc. rewrite !ltb_key by assumption. apply ntr.
Qed.

Lemma Prim2SF_inj (x y : float) : Prim2SF x = Prim2SF y -> x = y.
Proof.
  intros E. rewrite <- (SF2Prim_Prim2SF x), <- (SF2Prim_Prim2SF y). now rewrite E.
Qed.

(** ** The distance in binary64 *)

Lemma binary_round_aux_sign (s : bool) (m e : Z) (l : location) :
  binary_round_aux prec emax (negb s) m e l = SFopp (binary_round_aux prec emax s m e l).
Proof.
  unfold binary_round_aux.
  destruct (shr_fexp prec emax m e l) as [mrs' e'].
  destruct (shr_fexp prec emax _ e' loc_Exact) as [mrs'' e''].
  destruct (shr_m mrs''); try reflexivity.
  destruct (e'' <=? emax - prec)%Z; reflexivity.
Qed.

Lemma binary_round_sign (s : bool) (m : positive) (e : Z) :
  binary_round prec emax (negb s) m e = SFopp (binary_round prec emax s m e).
Proof.
  unfold binary_round.
  destruct (shl_align m e _) as [mz ez]. apply binary_round_aux_sign.
Qed.

Lemma binary_normalize_opp (z e : Z) :
  z <> 0 ->
  binary_normalize prec emax (- z) e false = SFopp (binary_normalize prec emax z e false).
Proof.
  destruct z as [|p|p]; intros Hz; [congruence| |]; simpl.
  - apply (binary_round_sign false).
  - change (binary_round prec emax true p e) with (binary_round prec emax (negb false) p e).
    rewrite (binary_round_sign false).
    destruct (binary_round prec emax false p e) as [s | s | | s m e']; simpl;
      try reflexivity; now destruct s.
Qed.

Lemma SF64sub_swap (a b : spec_float) : opposite (SF64sub a b) (SF64sub b a).
Proof.
  unfold SF64sub, SFsub, opposite.
  destruct a as [sa | sa | | sa ma ea], b as [sb | sb | | sb mb eb];
    try (destruct sa; try destruct sb; simpl; auto; fail);
    try (destruct sb; simpl; auto; fail);
    try (simpl; auto; fail).
  rewrite (Z.min_comm eb ea).
  set (x := cond_Zopp sa (Z.pos (fst (shl_align ma ea (Z.min ea eb))))).
  set (y := cond_Zopp sb (Z.pos (fst (shl_align mb eb (Z.min ea eb))))).
  destruct (Z.eq_dec (x - y) 0) as [E | E].
  - right. replace (y - x) with 0 by lia. rewrite E. split; reflexivity.
  - left. replace (y - x) with (- (x - y)) by lia. now apply binary_normalize_opp.
Qed.

Lemma SF64mul_square_opposite (u v : spec_float) :
  opposite u v -> SF64mul v v = SF64mul u u.
Proof.
  intros [-> | [-> ->]]; [|reflexivity].
  destruct u as [s | s | | s m e]; simpl; try reflexivity;
    try (destruct s; reflexivity).
Qed.

Lemma Pow2_sub_swap (a b : float) :
  routing.Pow2 (F:=float) (a - b)%f64 = routing.Pow2 (b - a)%f64.
Proof.
  apply Prim2SF_inj. unfold routing.Pow2. cbn [f_mul f_sub IEEE].
  rewrite !mul_spec, !sub_spec.
  symmetry. apply SF64mul_square_opposite, SF64sub_swap.
Qed.

Lemma CalculateDistance_sym (x1 y1 x2 y2 : float) :
  routing.CalculateDistance x1 y1 x2 y2 = routing.CalculateDistance x2 y2 x1 y1.
Proof.
  unfold routing.CalculateDistance.
  now rewrite (Pow2_sub_swap x1 x2), (Pow2_sub_swap y1 y2).
Qed.

Lemma iter_pos_invariant {A : Type} (f : A -> A) (P : A -> Prop) :
  (forall x, P x -> P (f x)) -> forall p x, P x -> P (iter_pos f p x).
Proof.
  intros Hf. induction p as [p IH | p IH |]; intros x Hx; simpl; auto.
Qed.

Lemma shr_1_nonneg (mrs : shr_record) : 0 <= shr_m mrs -> 0 <= shr_m (shr_1 mrs).
Proof.
  destruct mrs as [m r s]. simpl. destruct m as [|p|p]; simpl; try lia.
  - destruct p; simpl; lia.
Qed.

Lemma shr_fexp_nonneg (m e : Z) (l : location) :
  0 <= m -> 0 <= shr_m (fst (shr_fexp prec emax m e l)).
Proof.
  intros Hm. unfold shr_fexp, shr.
  assert (H0 : 0 <= shr_m (shr_record_of_loc m l)).
  { destruct l as [|[]]; exact Hm. }
  destruct (fexp prec emax (Zdigits2 m + e) - e) as [|p|p]; simpl; try exact H0.
  apply (iter_pos_invariant shr_1 (fun r => 0 <= shr_m r)); [apply shr_1_nonneg | exact H0].
Qed.

Lemma round_nearest_even_nonneg (m : Z) (l : location) :
  0 <= m -> 0 <= round_nearest_even m l.
Proof.
  intros Hm. unfold round_nearest_even. destruct l as [|[]]; try lia.
  destruct (Z.even m); lia.
Qed.

Lemma binary_round_aux_signed (s : bool) (m e : Z) (l : location) :
  0 <= m -> signed_sf s (binary_round_aux prec emax s m e l).
Proof.
  intros Hm. unfold binary_round_aux.
  assert (H1 := shr_fexp_nonneg m e l Hm).
  destruct (shr_fexp prec emax m e l) as [mrs' e']. simpl in H1.
  assert (H2 := shr_fexp_nonneg _ e' loc_Exact
                  (round_nearest_even_nonneg _ (loc_of_shr_record mrs') H1)).
  destruct (shr_fexp prec emax _ e' loc_Exact) as [mrs'' e'']. simpl in H2.
  unfold signed_sf. destruct (shr_m mrs'') as [|p|p]; [auto| |lia].
  destruct (e'' <=? emax - prec)%Z; eauto.
Qed.

Lemma binary_round_signed (s : bool) (m : positive) (e : Z) :
  signed_sf s (binary_round prec emax s m e).
Proof.
  unfold binary_round. destruct (shl_align m e _) as [mz ez].
  apply binary_round_aux_signed. lia.
Qed.

Lemma signed_not_nan (s : bool) (x : spec_float) : signed_sf s x -> x <> S754_nan.
Proof. intros [-> | [(m & e & ->) | ->]]; discriminate. Qed.

Lemma binary_normalize_not_nan (z e : Z) :
  binary_normalize prec emax z e false <> S754_nan.
Proof.
  destruct z as [|p|p]; simpl; [discriminate | |];
    eapply signed_not_nan, binary_round_signed.
Qed.

Lemma SF64sub_finite (a b : spec_float) :
  finite_sf a -> finite_sf b -> SF64sub a b <> S754_nan.
Proof.
  intros [[sa ->] | (sa & ma & ea & ->)] [[sb ->] | (sb & mb & eb & ->)];
    unfold SF64sub, SFsub; try discriminate.
  - destruct sa, sb; discriminate.
  - apply binary_normalize_not_nan.
Qed.

Lemma SF64mul_square (u : spec_float) : u <> S754_nan -> nonneg_sf (SF64mul u u).
Proof.
  intros Hu. unfold SF64mul, SFmul, nonneg_sf.
  destruct u as [s | s | | s m e]; try congruence.
  - left. now destruct s.
  - right; right. now destruct s.
  - replace (xorb s s) with false by now destruct s.
    apply (binary_round_aux_signed false). lia.
Qed.

Lemma SF64add_nonneg (p q : spec_float) :
  nonneg_sf p -> nonneg_sf q -> nonneg_sf (SF64add p q).
Proof.
  unfold nonneg_sf.
  intros [-> | [(mp & ep & ->) | ->]] [-> | [(mq & eq & ->) | ->]];
    unfold SF64add, SFadd; eauto 6.
  unfold cond_Zopp.
  set (x := fst (shl_align mp ep (Z.min ep eq))).
  set (y := fst (shl_align mq eq (Z.min ep eq))).
  change (Z.pos x + Z.pos y) with (Z.pos (x + y)). simpl.
  apply (binary_round_signed false).
Qed.

Lemma SF64sqrt_nonneg (p : spec_float) : nonneg_sf p -> nonneg_sf (SF64sqrt p).
Proof.
  unfold nonneg_sf.
  intros [-> | [(m & e & ->) | ->]]; unfold SF64sqrt, SFsqrt; eauto.
  unfold SFsqrt_core_binary.
  set (m' := match e - 2 * _ with Z0 => Z.pos m | Zpos _ => _ | Zneg _ => 0 end).
  assert (Hm' : 0 <= m').
  { unfold m'. destruct (e - 2 * _); try lia. apply Z.shiftl_nonneg. lia. }
  assert (Hs := Z.sqrtrem_spec m' Hm').
  destruct (Z.sqrtrem m') as [q r].
  apply (binary_round_aux_signed false). lia.
Qed.

Lemma is_finite_Prim2SF (x : float) :
  PrimFloat.is_finite x = true -> finite_sf (Prim2SF x).
Proof.
  unfold PrimFloat.is_finite, PrimFloat.is_nan, PrimFloat.is_infinity.
  rewrite !eqb_spec, abs_spec. unfold finite_sf.
  destruct (Prim2SF x) as [s | s | | s m e]; eauto.
  - destruct s; discriminate.
  - discriminate.
Qed.

(** A distance between points of finite coordinates is not NaN. *)
Lemma CalculateDistance_not_nan (x1 y1 x2 y2 : float) :
  PrimFloat.is_finite x1 = true -> PrimFloat.is_finite y1 = true ->
  PrimFloat.is_finite x2 = true -> PrimFloat.is_finite y2 = true ->
  PrimFloat.is_nan (routing.CalculateDistance x1 y1 x2 y2) = false.
Proof.
  intros Hx1 Hy1 Hx2 Hy2. apply is_nan_Prim2SF.
  unfold routing.CalculateDistance, routing.Pow2, f_sqrt, IEEE_sqrt.
  cbn [f_mul f_sub f_add IEEE].
  rewrite sqrt_spec, add_spec, !mul_spec, !sub_spec.
  apply (signed_not_nan false), SF64sqrt_nonneg, SF64add_nonneg;
    apply SF64mul_square, SF64sub_finite; now apply is_finite_Prim2SF.
Qed.

(** No distance is negative, whatever the coordinates. *)
Lemma CalculateDistance_nonneg (x1 y1 x2 y2 : float) :
  PrimFloat.ltb (routing.CalculateDistance x1 y1 x2 y2) (f_lit 0) = false.
Proof.
  rewrite ltb_spec.
  unfold routing.CalculateDistance, f_sqrt, IEEE_sqrt. rewrite sqrt_spec.
  assert (E0 : Prim2SF (f_lit (F:=float) 0) = S754_zero false) by (vm_compute; reflexivity).
  rewrite E0. clear E0.
  match goal with |- SFltb (SF64sqrt ?z) _ = _ => destruct z as [s | s | | s m e] end;
    unfold SF64sqrt, SFsqrt.
  - reflexivity.
  - now destruct s.
  - reflexivity.
  - destruct s; [reflexivity|].
    destruct (SFsqrt_core_binary prec emax (Z.pos m) e) as [[mz ez] lz].
    unfold binary_round_aux.
    destruct (shr_fexp prec emax mz ez lz) as [mrs' e'].
    destruct (shr_fexp prec emax _ e' loc_Exact) as [mrs'' e''].
    destruct (shr_m mrs''); try reflexivity.
    destruct (e'' <=? emax - prec)%Z; reflexivity.
Qed.

(** The distance of a point of finite coordinates to itself is 0. *)
Lemma SF64sub_self (a : spec_float) : finite_sf a -> SF64sub a a = S754_zero false.
Proof.
  intros [[s ->] | (s & m & e & ->)]; unfold SF64sub, SFsub.
  - now destruct s.
  - now rewrite Z.sub_diag.
Qed.

Lemma CalculateDistance_self (x y : float) :
  PrimFloat.is_finite x = true -> PrimFloat.is_finite y = true ->
  routing.CalculateDistance x y x y = f_lit 0.
Proof.
  intros Hx Hy. apply Prim2SF_inj.
  assert (E0 : Prim2SF (f_lit (F:=float) 0) = S754_zero false) by (vm_compute; reflexivity).
  rewrite E0.
  unfold routing.CalculateDistance, routing.Pow2, f_sqrt, IEEE_sqrt.
  cbn [f_mul f_sub f_add IEEE].
  rewrite sqrt_spec, add_spec, !mul_spec, !sub_spec.
  rewrite !SF64sub_self by now apply is_finite_Prim2SF.
  reflexivity.
Qed.

(** ** Insertion sort orders a slice whose elements [less] orders *)

Section InsertionSortLocal.
Context {A : Type} (less : A -> A -> bool) (P : A -> Prop).
Hypothesis less_swo : swo_on P less.

Lemma less_asym_on a b : P a -> P b -> less a b = true -> less b a = false.
Proof.
  destruct less_swo as (irr & tr & _). intros Pa Pb ab.
  destruct (less b a) eqn:ba; [|reflexivity].
  rewrite <- (irr a Pa). symmetry. now apply tr with b.
Qed.

Lemma insertLeft_Forall a l : P a -> Forall P l -> Forall P (insertLeft less a l).
Proof.
  intros Pa Pl. apply (Permutation_Forall (Permutation_sym (insertLeft_perm less a l))).
  now constructor.
Qed.

Lemma insertLeft_ordered_on a l :
  P a -> Forall P l -> orderedRev less l -> orderedRev less (insertLeft less a l).
Proof.
  destruct less_swo as (_ & _ & ntr).
  intros Pa Pl Ho. induction Ho as [|b l Hb Hl IH]; simpl.
  - constructor; constructor.
  - inversion Pl as [|? ? Pb Pl']; subst.
    destruct (less a b) eqn:ab.
    + constructor; [|now apply IH].
      apply (Permutation_Forall (Permutation_sym (insertLeft_perm less a l))).
      constructor; [now apply less_asym_on | exact Hb].
    + constructor; [|now constructor].
      constructor; [exact ab|].
      rewrite Forall_forall in Hb, Pl' |- *. intros c Hc.
      apply ntr with b; auto.
Qed.

Lemma insertionSort_ordered_on l : Forall P l -> ordered less (insertionSort less l).
Proof.
  intros Pl. unfold insertionSort. apply orderedRev_rev.
  assert (G : forall acc, Forall P acc -> orderedRev less acc ->
    orderedRev less (fold_left (fun s a => insertLeft less a s) l acc)).
  { induction Pl as [|a l' Pa Pl' IH]; intros acc Pacc Hacc; simpl; [exact Hacc|].
    apply IH; [now apply insertLeft_Forall | now apply insertLeft_ordered_on]. }
  apply G; constructor.
Qed.
End InsertionSortLocal.

#[export] Instance InsertionSorter_local : SliceSorterLocal (H := InsertionSorter).
Proof.
  intros A less l swo.
  apply (insertionSort_ordered_on less (fun a => In a l) swo).
  now apply Forall_forall.
Qed.

(** ** The k nearest candidates *)

Lemma swo_on_weaken {A : Type} (P Q : A -> Prop) (less : A -> A -> bool) :
  (forall a, Q a -> P a) -> swo_on P less -> swo_on Q less.
Proof.
  intros PQ (irr & tr & ntr). repeat split.
  - intros a Qa. apply irr; auto.
  - intros a b c Qa Qb Qc. apply tr; auto.
  - intros a b c Qa Qb Qc. apply ntr; auto.
Qed.

Lemma swo_on_pullback {A B : Type} (f : A -> B) (P : B -> Prop) (less : B -> B -> bool) :
  swo_on P less -> swo_on (fun a => P (f a)) (fun a b => less (f a) (f b)).
Proof.
  intros (irr & tr & ntr). repeat split.
  - intros a Pa. now apply irr.
  - intros a b c Pa Pb Pc. now apply tr.
  - intros a b c Pa Pb Pc. now apply ntr.
Qed.

Lemma ordered_app {A : Type} (less : A -> A -> bool) (l1 l2 : list A) :
  ordered less (l1 ++ l2) ->
  ordered less l1 /\ ordered less l2 /\
  forall a b, In a l1 -> In b l2 -> less b a = false.
Proof.
  induction l1 as [|a l1 IH]; simpl; intros Ho.
  - split; [constructor|]. split; [exact Ho|]. intros a b [].
  - inversion Ho as [|? ? Ha Hl]; subst.
    destruct (IH Hl) as (H1 & H2 & H3).
    apply Forall_app in Ha. destruct Ha as [Ha1 Ha2].
    split; [now constructor|]. split; [exact H2|].
    intros c b [<- | Hc] Hb; [|now apply H3].
    rewrite Forall_forall in Ha2. now apply Ha2.
Qed.

Lemma ordered_map_on {A B C : Type} (f : A -> B) (g : B -> C) (h : A -> C)
    (R : C -> C -> bool) (l : list A) :
  (forall a, In a l -> g (f a) = h a) ->
  ordered (fun a b => R (h a) (h b)) l ->
  ordered (fun a b => R (g a) (g b)) (map f l).
Proof.
  intros E Ho. induction Ho as [|a l Ha Hl IH]; simpl; [constructor|].
  constructor.
  - rewrite Forall_forall in Ha |- *. intros b Hb.
    apply in_map_iff in Hb. destruct Hb as (w & <- & Hw).
    rewrite (E w), (E a); [now apply Ha | now left | now right].
  - apply IH. intros w Hw. apply E. now right.
Qed.

Section Nearest.
Context {F : Type} `{Arith F} `{Sqrt F} `{SliceSorter}
        {laws : SliceSorterLaws} {local : SliceSorterLocal}.
Import models routing.

Lemma nearest_candidates (P : F -> Prop) (nodes : list (Node F)) (x y : F) (k : Z) :
  swo_on P f_ltb -> (0 <= k)%Z ->
  (forall n, In n nodes -> Status n = "healthy" -> P (distanceTo x y n)) ->
  exists chosen rest,
    FindKNearestNodes nodes x y k = Ret chosen /\
    Permutation (chosen ++ rest) (filter healthyb nodes) /\
    List.length chosen = Nat.min (Z.to_nat k) (List.length (filter healthyb nodes)) /\
    ordered (fun a b => (distanceTo x y a <? distanceTo x y b)%f64) chosen /\
    (forall c r, In c chosen -> In r rest ->
       (distanceTo x y r <? distanceTo x y c)%f64 = false).
Proof.
  intros Hswo Hk HP.
  rewrite FindKNearestNodes_eq. destruct (Z.ltb_spec k 0) as [|_]; [lia|].
  set (less := fun a b : NodeWithDistance F => (Distance a <? Distance b)%f64).
  set (cands := map (withDistance x y) (filter healthyb nodes)).
  set (sorted := sortSlice less cands).
  assert (Hperm : Permutation sorted cands) by apply sortSlice_perm.
  assert (Hcand : forall w, In w cands ->
            Distance w = distanceTo x y (nwdNode w) /\ P (Distance w)).
  { intros w Hw. apply in_map_iff in Hw. destruct Hw as (n & <- & Hn).
    apply filter_In in Hn. destruct Hn as [Hin Hh]. split; [reflexivity|].
    apply HP; [exact Hin|]. now apply String.eqb_eq. }
  assert (Hord : ordered less sorted).
  { apply sortSlice_ordered_on.
    apply (swo_on_weaken (fun w => P (Distance w))); [intros w Hw; now apply Hcand|].
    apply (swo_on_pullback (@Distance F) P f_ltb Hswo). }
  rewrite <- (firstn_skipn (Z.to_nat k) sorted) in Hord.
  apply ordered_app in Hord. destruct Hord as (Ho1 & _ & Hcross).
  assert (Hsorted : forall w, In w sorted -> Distance w = distanceTo x y (nwdNode w)).
  { intros w Hw. apply Hcand. now apply (Permutation_in _ Hperm). }
  exists (map (@nwdNode F) (firstn (Z.to_nat k) sorted)),
         (map (@nwdNode F) (skipn (Z.to_nat k) sorted)).
  split; [reflexivity|]. split; [|split; [|split]].
  - rewrite <- map_app, firstn_skipn. apply sorted_candidates_perm.
  - rewrite length_map, length_firstn, (Permutation_length Hperm).
    unfold cands. now rewrite length_map.
  - apply (ordered_map_on (@nwdNode F) (distanceTo x y) (@Distance F) f_ltb).
    + intros w Hw. symmetry. apply Hsorted. eapply firstn_In; exact Hw.
    + exact Ho1.
  - intros c r Hc Hr.
    apply in_map_iff in Hc. destruct Hc as (wc & <- & Hwc).
    apply in_map_iff in Hr. destruct Hr as (wr & <- & Hwr).
    rewrite <- !Hsorted.
    + now apply Hcross.
    + eapply firstn_In; exact Hwc.
    + rewrite <- (firstn_skipn (Z.to_nat k) sorted). apply in_or_app. now right.
Qed.
End Nearest.

(** ** The candidate of least score *)

Section Best.
Context {F : Type} `{Arith F}.
Import models routing.

Variable P : F -> Prop.
Hypothesis score_swo : swo_on P f_ltb.

Lemma selectLoop_least (rest pre mid : list (Node F)) (best : Node F) :
  Forall (fun n => P (CalculateLoadScore n)) (pre ++ best :: mid ++ rest) ->
  (forall n, In n pre -> (CalculateLoadScore best <? CalculateLoadScore n)%f64 = true) ->
  (forall n, In n mid -> (CalculateLoadScore n <? CalculateLoadScore best)%f64 = false) ->
  exists before after,
    (pre ++ best :: mid ++ rest)%list
      = (before ++ selectLoop best (calculateLoadScore best) rest :: after)%list /\
    (forall n, In n before ->
       (CalculateLoadScore (selectLoop best (calculateLoadScore best) rest)
        <? CalculateLoadScore n)%f64 = true) /\
    (forall n, In n after ->
       (CalculateLoadScore n
        <? CalculateLoadScore (selectLoop best (calculateLoadScore best) rest))%f64 = false).
Proof.
  destruct score_swo as (irr & tr & ntr).
  unfold calculateLoadScore.
  revert pre mid best.
  induction rest as [|node rest IH]; intros pre mid best HP Hpre Hmid.
  - simpl. exists pre, mid. rewrite app_nil_r. auto.
  - assert (Pall : forall n, In n (pre ++ best :: mid ++ node :: rest) ->
                             P (CalculateLoadScore n))
      by (now apply Forall_forall).
    assert (Pbest : P (CalculateLoadScore best))
      by (apply Pall, in_or_app; right; now left).
    assert (Pnode : P (CalculateLoadScore node)).
    { apply Pall, in_or_app; right; right. apply in_or_app; right; now left. }
    cbn [selectLoop]. unfold calculateLoadScore.
    destruct (CalculateLoadScore node <? CalculateLoadScore best)%f64 eqn:E.
    + destruct (IH (pre ++ best :: mid)%list [] node) as (before & after & E1 & E2 & E3).
      * simpl. rewrite <- app_assoc. simpl. exact HP.
      * intros n Hn. apply in_app_or in Hn. destruct Hn as [Hn | [<- | Hn]].
        -- apply tr with (CalculateLoadScore best); auto.
           apply Pall, in_or_app; now left.
        -- exact E.
        -- assert (Pn : P (CalculateLoadScore n)).
           { apply Pall, in_or_app; right; right. apply in_or_app; now left. }
           destruct (CalculateLoadScore node <? CalculateLoadScore n)%f64 eqn:En;
             [reflexivity|].
           rewrite (ntr _ _ _ Pnode Pn Pbest En (Hmid n Hn)) in E. discriminate.
      * intros n [].
      * exists before, after. split; [|split; assumption].
        rewrite <- E1. simpl. rewrite <- app_assoc. reflexivity.
    + destruct (IH pre (mid ++ [node])%list best) as (before & after & E1 & E2 & E3).
      * rewrite <- app_assoc. exact HP.
      * exact Hpre.
      * intros n Hn. apply in_app_or in Hn. destruct Hn as [Hn | [<- | []]]; auto.
      * exists before, after. split; [|split; assumption].
        rewrite <- E1, <- app_assoc. reflexivity.
Qed.

Lemma SelectBestNode_least (nodes : list (Node F)) :
  nodes <> [] ->
  Forall (fun n => P (CalculateLoadScore n)) nodes ->
  exists before after,
    nodes = (before ++ SelectBestNode nodes :: after)%list /\
    (forall n, In n before ->
       (CalculateLoadScore (SelectBestNode nodes) <? CalculateLoadScore n)%f64 = true) /\
    (forall n, In n after ->
       (CalculateLoadScore n <? CalculateLoadScore (SelectBestNode nodes))%f64 = false).
Proof.
  destruct nodes as [|best rest]; [congruence|]. intros _ HP.
  apply (selectLoop_least rest [] [] best); [exact HP | intros n [] | intros n []].
Qed.
End Best.

Lemma is_nan_true (x : float) : PrimFloat.is_nan x = true -> Prim2SF x = S754_nan.
Proof.
  intros Hx. destruct (Prim2SF x) as [s | s | | s m e] eqn:E; try reflexivity;
    assert (N : Prim2SF x <> S754_nan) by (rewrite E; discriminate);
    apply is_nan_Prim2SF in N; congruence.
Qed.

Lemma ltb_nan_r (x y : float) : PrimFloat.is_nan y = true -> PrimFloat.ltb x y = false.
Proof.
  intros Hy. rewrite ltb_spec, (is_nan_true y Hy).
  unfold SFltb, SFcompare. now destruct (Prim2SF x).
Qed.

Lemma ltb_true_not_nan (x y : float) : PrimFloat.ltb x y = true -> PrimFloat.is_nan x = false.
Proof.
  intros Hlt. apply is_nan_Prim2SF. intros Hx.
  rewrite ltb_spec, Hx in Hlt. discriminate.
Qed.

Lemma selectLoop_nan_first (rest : list (models.Node float)) (best : models.Node float)
    (bestScore : float) :
  PrimFloat.is_nan bestScore = true -> routing.selectLoop best bestScore rest = best.
Proof.
  intros Hn. induction rest as [|node rest IH]; [reflexivity|].
  cbn [routing.selectLoop].
  change (f_ltb (routing.calculateLoadScore node) bestScore)
    with (PrimFloat.ltb (routing.calculateLoadScore node) bestScore).
  now rewrite (ltb_nan_r _ _ Hn).
Qed.

Lemma selectLoop_not_nan (rest : list (models.Node float)) (best : models.Node float) :
  PrimFloat.is_nan (routing.CalculateLoadScore best) = false ->
  PrimFloat.is_nan (routing.CalculateLoadScore
                      (routing.selectLoop best (routing.CalculateLoadScore best) rest)) = false.
Proof.
  revert best. induction rest as [|node rest IH]; intros best Hb; [exact Hb|].
  cbn [routing.selectLoop]. unfold routing.calculateLoadScore.
  destruct (f_ltb (routing.CalculateLoadScore node) (routing.CalculateLoadScore best)) eqn:E;
    [|now apply IH].
  apply IH. exact (ltb_true_not_nan _ _ E).
Qed.

(** No capacity and no connection: the connection term is 0/0. *)
Lemma idle_zero_capacity_score (node : models.Node float) :
  models.Capacity node = 0 -> models.ActiveConnections node = 0 ->
  PrimFloat.is_nan (routing.CalculateLoadScore node) = true.
Proof.
  intros Hc Ha.
  destruct (PrimFloat.is_nan (routing.CalculateLoadScore node)) eqn:E; [reflexivity|].
  apply is_nan_Prim2SF in E. exfalso. apply E.
  unfold routing.CalculateLoadScore. rewrite Hc, Ha.
  cbn [f_add f_mul f_div f_int f_lit IEEE].
  rewrite add_spec, mul_spec, div_spec.
  assert (E0 : Prim2SF (float_of_Z 0) = S754_zero false) by (vm_compute; reflexivity).
  rewrite E0.
  change (SF64div (S754_zero false) (S754_zero false)) with S754_nan.
  assert (Em : forall u, SF64mul u S754_nan = S754_nan) by (intros u; now destruct u).
  assert (Ea : forall u, SF64add u S754_nan = S754_nan) by (intros u; now destruct u).
  now rewrite Em, Ea.
Qed.

(** ** The outcomes of [RouteRequest] and of its handler *)

Section RouteFacts.
Context {F : Type} `{Arith F} `{Sqrt F} `{SliceSorter}.
Import models routing.

Lemma RouteRequest_fault (s : Service F) (requestID : string) (c : Location F) (e : error) :
  db.fault (sdb s) = Some e -> RouteRequest s requestID c = Ret (None, Some e).
Proof. intros Hf. unfold RouteRequest, db.GetHealthyNodes. now rewrite Hf. Qed.

Lemma RouteRequest_returns (s : Service F) (requestID : string) (c : Location F) :
  exists r, RouteRequest s requestID c = Ret r /\
    match r with
    | (Some _, Some _) => False
    | (None, Some e) => db.fault (sdb s) = Some e
    | (_, None) => db.fault (sdb s) = None
    end.
Proof.
  unfold RouteRequest, db.GetHealthyNodes.
  destruct (db.fault (sdb s)) as [e|]; [eexists; split; [reflexivity | reflexivity]|].
  unfold FindKNearestNodes. change (3 <? 0)%Z with false. cbn [bind].
  destruct (List.length _ =? 0)%nat; eexists; (split; [reflexivity | reflexivity]).
Qed.
End RouteFacts.

Section RouteSelected.
Context {F : Type} `{Arith F} `{Sqrt F} `{SliceSorter} {laws : SliceSorterLaws}.
Import models routing.

Lemma RouteRequest_selected (s : Service F) (requestID : string) (c : Location F)
    (n : Node F) :
  db.fault (sdb s) = None ->
  RouteRequest s requestID c = Ret (Some n, None) ->
  exists row, In row (db.nodes (sdb s)) /\ db.Status row = Some "healthy" /\
              n = convertDBNodeToModel row.
Proof.
  intros Hf Hr.
  destruct (filter (db.status_is "healthy") (db.nodes (sdb s))) as [|r0 t] eqn:E.
  - rewrite (RouteRequest_none s requestID c Hf) in Hr; [discriminate|].
    intros row Hin Hs.
    assert (Hrow : In row (filter (db.status_is "healthy") (db.nodes (sdb s)))).
    { apply filter_In. split; [exact Hin | now apply status_is_healthy]. }
    rewrite E in Hrow. exact Hrow.
  - assert (Hr0 : In r0 (filter (db.status_is "healthy") (db.nodes (sdb s))))
      by (rewrite E; now left).
    apply filter_In in Hr0. destruct Hr0 as [Hin0 Hs0].
    destruct (RouteRequest_healthy s requestID c Hf) as (row & Hin & Hs & Hrow).
    { exists r0. split; [exact Hin0 | now apply status_is_healthy]. }
    exists row. split; [exact Hin|]. split; [exact Hs|]. congruence.
Qed.
End RouteSelected.






(** X4: on a non-empty list whose load scores are not NaN, [SelectBestNode]
    returns the first node of least score: its score is strictly below the
    score of every node before it and no node after it scores below it. *)
Theorem best_node_has_least_score (nodes : list (models.Node float)) :
  nodes <> [] ->
  Forall (fun n => PrimFloat.is_nan (routing.CalculateLoadScore n) = false) nodes ->
  exists before after,
    nodes = (before ++ routing.SelectBestNode nodes :: after)%list /\
    (forall n, In n before ->
       (routing.CalculateLoadScore (routing.SelectBestNode nodes)
        <? routing.CalculateLoadScore n)%f64 = true) /\
    (forall n, In n after ->
       (routing.CalculateLoadScore n
        <? routing.CalculateLoadScore (routing.SelectBestNode nodes))%f64 = false).
Proof.
  intros Hne Hs.
  exact (SelectBestNode_least (fun d => PrimFloat.is_nan d = false) float_swo nodes Hne Hs).
Qed.

Lemma best_node_has_least_score_witness :
  exists before after,
    scenario_nodes = (before ++ routing.SelectBestNode scenario_nodes :: after)%list /\
    (forall n, In n before ->
       (routing.CalculateLoadScore (routing.SelectBestNode scenario_nodes)
        <? routing.CalculateLoadScore n)%f64 = true) /\
    (forall n, In n after ->
       (routing.CalculateLoadScore n
        <? routing.CalculateLoadScore (routing.SelectBestNode scenario_nodes))%f64 = false).
Proof.
  apply (best_node_has_least_score scenario_nodes).
  - discriminate.
  - repeat constructor.
Defined.

(** X5: a first candidate of capacity 0 with no active connection, whose
    score is NaN, is selected whatever the other candidates are; and when
    the first candidate's score is not NaN, the selected node's score is not
    NaN either. *)
Theorem nan_score_candidate (first : models.Node float) (rest : list (models.Node float)) :
  (models.Capacity first = 0 -> models.ActiveConnections first = 0 ->
   routing.SelectBestNode (first :: rest) = first) /\
  (PrimFloat.is_nan (routing.CalculateLoadScore first) = false ->
   PrimFloat.is_nan (routing.CalculateLoadScore (routing.SelectBestNode (first :: rest)))
     = false).
Proof.
  split.
  - intros Hc Ha. unfold routing.SelectBestNode.
    apply selectLoop_nan_first. now apply idle_zero_capacity_score.
  - intros Hn. unfold routing.SelectBestNode, routing.calculateLoadScore.
    now apply selectLoop_not_nan.
Qed.

Lemma nan_score_candidate_witness :
  routing.SelectBestNode
    (routing.convertDBNodeToModel N5 :: scenario_nodes) = routing.convertDBNodeToModel N5 /\
  PrimFloat.is_nan
    (routing.CalculateLoadScore
       (routing.SelectBestNode
          (routing.convertDBNodeToModel scenario.N2 :: [routing.convertDBNodeToModel N5])))
    = false.
Proof.
  split.
  - apply (nan_score_candidate (routing.convertDBNodeToModel N5) scenario_nodes); reflexivity.
  - apply (nan_score_candidate (routing.convertDBNodeToModel scenario.N2)
             [routing.convertDBNodeToModel N5]).
    vm_compute; reflexivity.
Defined.




(** X8: POST /api/v1/route answers 400 and broadcasts nothing when the
    request id is empty or a coordinate is 0: [binding:"required"] takes the
    zero value for a missing field, so the origin's axes cannot be routed
    from. *)
Theorem route_handler_rejects_zero_fields
    `{SliceSorter} (h : api.PublicHandler float) (env : Env) (req : api.RouteRequest float) :
  api.RequestID req = "" \/
  models.X (api.Coordinates req) = f_lit 0 \/
  models.Y (api.Coordinates req) = f_lit 0 ->
  api.PublicHandler_RouteRequest h env (Some req)
    = Ret (api.mkResponse api.StatusBadRequest api.BindErrorJSON, []).
Proof.
  intros Hz. unfold api.PublicHandler_RouteRequest, api.ShouldBindJSON.
  assert (Hv : api.validRouteRequest req = false).
  { unfold api.validRouteRequest, api.required_Location.
    destruct Hz as [-> | [-> | ->]].
    - reflexivity.
    - rewrite andb_false_r. reflexivity || (apply andb_false_iff; right; reflexivity).
    - apply andb_false_iff. right. apply andb_false_iff. right. reflexivity. }
  now rewrite Hv.
Qed.

Lemma route_handler_rejects_zero_fields_witness :
  api.PublicHandler_RouteRequest
    (api.mkPublicHandler (db.mkDatabase [scenario.N1] None) (scenario.service [scenario.N1]))
    (mkEnv 7%N 1700000000 true)
    (Some (api.mkRouteRequest "req-1" (models.mkLocation (f_lit 0) (f_int 5)) ""))
  = Ret (api.mkResponse api.StatusBadRequest api.BindErrorJSON, []).
Proof.
  apply (route_handler_rejects_zero_fields
           (api.mkPublicHandler (db.mkDatabase [scenario.N1] None) (scenario.service [scenario.N1]))
           (mkEnv 7%N 1700000000 true)
           (api.mkRouteRequest "req-1" (models.mkLocation (f_lit 0) (f_int 5)) "")).
  right; left. reflexivity.
Defined.





(** ** What the monitor sends *)

Section MonitorCount.
Context {F : Type} `{Arith F}.
Import health.

Lemma checkEach_count (rows : list (db.Node F)) (m : Monitor F) (envs : nat -> Env) (i : nat) :
  (List.length (snd (checkEach m envs i rows)) <= List.length rows)%nat /\
  ((forall j, hubReady (envs j) = false) -> snd (checkEach m envs i rows) = []).
Proof.
  revert m i. induction rows as [|node rest IH]; intros m i; simpl.
  - split; [lia | reflexivity].
  - unfold checkNode.
    destruct (IH m (S i)) as [L E].
    destruct (hubReady (envs i)) eqn:R;
      destruct (checkEach m envs (S i) rest) as [m2 sent2]; simpl in *.
    + split; [lia|]. intros Hn. rewrite Hn in R. discriminate.
    + split; [lia|]. exact E.
Qed.

Lemma checkAllNodes_count (m : Monitor F) (envs : nat -> Env) :
  (List.length (snd (checkAllNodes m envs)) <= List.length (db.nodes (mdb m)))%nat /\
  (db.fault (mdb m) <> None -> snd (checkAllNodes m envs) = []) /\
  ((forall j, hubReady (envs j) = false) -> snd (checkAllNodes m envs) = []).
Proof.
  unfold checkAllNodes, db.GetAllNodes.
  destruct (db.fault (mdb m)) as [e|].
  - simpl. split; [lia|]. split; reflexivity.
  - destruct (checkEach_count (db.nodes (mdb m)) m envs 0) as [L E].
    split; [exact L|]. split; [congruence | exact E].
Qed.
End MonitorCount.

(** X11: whatever the number of ticks, the monitor leaves the registry as
    it was; it sends only mock updates, at most one per row and tick, and
    none at all when the database fails or the hub is not ready. *)
Theorem monitor_never_writes
    {F : Type} `{Arith F} (m : health.Monitor F) (envs : nat -> nat -> Env) (ticks : nat) :
  fst (health.Start m envs ticks) = m /\
  Forall mock_update (snd (health.Start m envs ticks)) /\
  (List.length (snd (health.Start m envs ticks))
   <= ticks * List.length (db.nodes (health.mdb m)))%nat /\
  (db.fault (health.mdb m) <> None -> snd (health.Start m envs ticks) = []) /\
  ((forall t j, hubReady (envs t j) = false) -> snd (health.Start m envs ticks) = []).
Proof.
  destruct (Start_effect m envs ticks) as [E M].
  split; [exact E|]. split; [exact M|].
  clear E M. induction ticks as [|t IH]; simpl.
  - split; [lia|]. split; reflexivity.
  - destruct (Start_effect m envs t) as [E1 _].
    destruct (health.Start m envs t) as [m1 sent1]. simpl in E1, IH. subst m1.
    destruct (checkAllNodes_count m (envs t)) as (L & Ef & Er).
    destruct (health.checkAllNodes m (envs t)) as [m2 sent2]. simpl in L, Ef, Er |- *.
    destruct IH as (IL & IF & IR).
    split; [rewrite length_app; lia|]. split.
    + intros Hf. now rewrite (IF Hf), (Ef Hf).
    + intros Hr. rewrite (IR Hr), Er; [reflexivity | intros j; apply Hr].
Qed.

Lemma monitor_never_writes_witness :
  snd (health.Start
         (health.mkMonitor (db.mkDatabase [probing.N4] (Some "connection refused")) 30)
         probing.envs 3) = [] /\
  snd (health.Start probing.monitor (fun _ _ => mkEnv 0%N 0 false) 3) = [].
Proof.
  split.
  - destruct (monitor_never_writes
                (health.mkMonitor (db.mkDatabase [probing.N4] (Some "connection refused")) 30)
                probing.envs 3) as (_ & _ & _ & Hfault & _).
    apply Hfault. discriminate.
  - destruct (monitor_never_writes probing.monitor (fun _ _ => mkEnv 0%N 0 false) 3)
      as (_ & _ & _ & _ & Hhub).
    apply Hhub. reflexivity.
Defined.

(** ** The statements that write to [nodes] *)

#[export] Instance AsciiColumns_laws : VarcharLaws (H := AsciiColumns).
Proof.
  intros n s Ha Hl. unfold varchar, AsciiColumns. rewrite Ha.
  destruct (Nat.leb_spec (String.length s) n); [reflexivity | lia].
Qed.

Section QueryFacts.
Context {F : Type} `{Arith F} `{Varchar}.
Import queries.

Lemma has_id_true (id : UUID) (row : db.Node F) : has_id id row = true <-> db.ID row = id.
Proof. unfold has_id. apply N.eqb_eq. Qed.

Lemma has_id_false (id : UUID) (row : db.Node F) : has_id id row = false <-> db.ID row <> id.
Proof. unfold has_id. apply N.eqb_neq. Qed.

Section Update.
Variable id : UUID.
Variable set : db.Node F -> db.Node F.
Hypothesis set_id : forall r, db.ID (set r) = db.ID r.

Let upd (r : db.Node F) : db.Node F := if has_id id r then set r else r.

Lemma update_ids (rows : list (db.Node F)) :
  map (@db.ID F) (map upd rows) = map (@db.ID F) rows.
Proof.
  rewrite map_map. apply map_ext. intros r. unfold upd.
  destruct (has_id id r); [apply set_id | reflexivity].
Qed.

Lemma find_update_same (rows : list (db.Node F)) (row : db.Node F) :
  find (has_id id) rows = Some row -> find (has_id id) (map upd rows) = Some (set row).
Proof.
  induction rows as [|r rest IH]; simpl; [discriminate|].
  destruct (has_id id r) eqn:E.
  - intros [= ->].
    assert (Eu : upd row = set row) by (unfold upd; now rewrite E).
    rewrite Eu. unfold has_id in *. now rewrite set_id, E.
  - assert (Eu : upd r = r) by (unfold upd; now rewrite E).
    rewrite Eu, E. exact IH.
Qed.

Lemma find_update_other (rows : list (db.Node F)) (other : UUID) :
  other <> id -> find (has_id other) (map upd rows) = find (has_id other) rows.
Proof.
  intros Hne. induction rows as [|r rest IH]; simpl; [reflexivity|].
  destruct (has_id id r) eqn:E.
  - assert (Eu : upd r = set r) by (unfold upd; now rewrite E).
    apply has_id_true in E.
    assert (E1 : has_id other (set r) = false)
      by (apply has_id_false; rewrite set_id; congruence).
    assert (E2 : has_id other r = false) by (apply has_id_false; congruence).
    now rewrite Eu, E1, E2.
  - assert (Eu : upd r = r) by (unfold upd; now rewrite E).
    now rewrite Eu, IH.
Qed.

Lemma In_update (rows : list (db.Node F)) (row : db.Node F) :
  In row (map upd rows) ->
  (db.ID row = id /\ exists r, In r rows /\ db.ID r = id /\ row = set r) \/
  (db.ID row <> id /\ In row rows).
Proof.
  intros Hin. apply in_map_iff in Hin. destruct Hin as (r & <- & Hr).
  unfold upd. destruct (has_id id r) eqn:E.
  - left. apply has_id_true in E. split; [now rewrite set_id|]. now exists r.
  - right. apply has_id_false in E. now split.
Qed.
End Update.

Lemma find_In (id : UUID) (rows : list (db.Node F)) (row : db.Node F) :
  find (has_id id) rows = Some row -> In row rows /\ db.ID row = id.
Proof.
  intros Hf. apply find_some in Hf. destruct Hf as [Hin Hid].
  split; [exact Hin | now apply has_id_true].
Qed.

Lemma find_none_iff (id : UUID) (rows : list (db.Node F)) :
  find (has_id id) rows = None <-> forall row, In row rows -> db.ID row <> id.
Proof.
  split.
  - intros Hf row Hin. apply has_id_false. exact (find_none _ _ Hf row Hin).
  - intros Hall. induction rows as [|r rest IH]; simpl; [reflexivity|].
    assert (E : has_id id r = false) by (apply has_id_false, Hall; now left).
    rewrite E. apply IH. intros row Hin. apply Hall. now right.
Qed.

Lemma find_unique (id : UUID) (rows : list (db.Node F)) (row r : db.Node F) :
  NoDup (map (@db.ID F) rows) ->
  find (has_id id) rows = Some row -> In r rows -> db.ID r = id -> r = row.
Proof.
  induction rows as [|a rest IH]; simpl; [discriminate|].
  intros Hnd Hf Hin Hid. inversion Hnd as [|? ? Hnot Hnd']; subst.
  destruct (has_id (db.ID r) a) eqn:E.
  - injection Hf as <-. apply has_id_true in E.
    destruct Hin as [-> | Hin]; [reflexivity|].
    exfalso. apply Hnot. rewrite E. now apply in_map.
  - destruct Hin as [-> | Hin].
    + apply has_id_false in E. congruence.
    + now apply IH.
Qed.

Lemma insertByCreated_perm (now : Time) (row : db.Node F) (rows : list (db.Node F)) :
  Permutation (insertByCreated now row rows) (row :: rows).
Proof.
  induction rows as [|r rest IH]; simpl; [reflexivity|].
  destruct (match db.CreatedAt r with None => true | Some t => (now <? t)%Z end);
    [|reflexivity].
  rewrite IH. apply perm_swap.
Qed.

Lemma find_insert_other (p : db.Node F -> bool) (now : Time) (row : db.Node F)
    (rows : list (db.Node F)) :
  p row = false -> find p (insertByCreated now row rows) = find p rows.
Proof.
  intros Hp. induction rows as [|r rest IH]; simpl; [now rewrite Hp|].
  destruct (match db.CreatedAt r with None => true | Some t => (now <? t)%Z end); simpl.
  - now rewrite IH.
  - now rewrite Hp.
Qed.

Lemma find_insert_new (p : db.Node F -> bool) (now : Time) (row : db.Node F)
    (rows : list (db.Node F)) :
  p row = true -> existsb p rows = false ->
  find p (insertByCreated now row rows) = Some row.
Proof.
  intros Hp. induction rows as [|r rest IH]; simpl; [now rewrite Hp|].
  intros Hex. apply orb_false_iff in Hex. destruct Hex as [Hr Hrest].
  destruct (match db.CreatedAt r with None => true | Some t => (now <? t)%Z end); simpl.
  - rewrite Hr. now apply IH.
  - now rewrite Hp.
Qed.
End QueryFacts.

Section Statements.
Context {F : Type} `{Arith F} `{Varchar}.
Import queries.

Lemma setHealth_id now status arg (r : db.Node F) : db.ID (setHealth now status arg r) = db.ID r.
Proof. reflexivity. Qed.

Lemma setNode_id now name endpoint status arg (r : db.Node F) :
  db.ID (setNode now name endpoint status arg r) = db.ID r.
Proof. reflexivity. Qed.

Lemma UpdateNodeHealth_inv (d d' : db.Database F) (env : Env)
    (arg : UpdateNodeHealthParams F) (row' : db.Node F) :
  UpdateNodeHealth d env arg = (d', inl row') ->
  exists row status,
    db.fault d = None /\
    find (has_id (uhID arg)) (db.nodes d) = Some row /\
    varchar_opt 20 (uhStatus arg) = Some status /\
    row' = setHealth (now env) status arg row /\
    d' = db.mkDatabase
           (map (fun r => if has_id (uhID arg) r
                          then setHealth (now env) status arg r else r) (db.nodes d)) None.
Proof.
  unfold UpdateNodeHealth. destruct (db.fault d) as [e|]; [discriminate|].
  destruct (find _ _) as [row|]; [|discriminate].
  destruct (varchar_opt 20 (uhStatus arg)) as [status|]; [|discriminate].
  intros [= <- <-]. now exists row, status.
Qed.
End Statements.

(** X12: a successful [UpdateNodeHealth] returns the row it stored: the row
    of the given id, with its name, location, endpoint, capacity and creation
    time kept, the reported cpu, memory, connections and check time, and
    [updated_at] set to now.  Every other id reads as before and the rows
    keep their ids and their order. *)
Theorem update_health_changes_one_node
    {F : Type} `{Arith F} `{Varchar}
    (d d' : db.Database F) (env : Env) (arg : queries.UpdateNodeHealthParams F)
    (row' : db.Node F) :
  queries.UpdateNodeHealth d env arg = (d', inl row') ->
  exists row,
    queries.GetNodeByID d (queries.uhID arg) = inl row /\
    queries.GetNodeByID d' (queries.uhID arg) = inl row' /\
    (forall other, other <> queries.uhID arg ->
       queries.GetNodeByID d' other = queries.GetNodeByID d other) /\
    map (@db.ID F) (db.nodes d') = map (@db.ID F) (db.nodes d) /\
    (db.ID row', db.Name row', db.LocationX row', db.LocationY row', db.Endpoint row',
     db.Capacity row', db.CreatedAt row')
    = (db.ID row, db.Name row, db.LocationX row, db.LocationY row, db.Endpoint row,
       db.Capacity row, db.CreatedAt row) /\
    (db.CpuUsage row', db.MemoryUsage row', db.ActiveConnections row',
     db.LastHealthCheck row', db.UpdatedAt row')
    = (queries.uhCpuUsage arg, queries.uhMemoryUsage arg, queries.uhActiveConnections arg,
       queries.uhLastHealthCheck arg, Some (now env)).
Proof.
  intros Hu. destruct (UpdateNodeHealth_inv _ _ _ _ _ Hu) as (row & status & Hf & Hfind & _ & -> & ->).
  exists row. unfold queries.GetNodeByID. cbn [db.fault db.nodes]. rewrite Hf, Hfind.
  split; [reflexivity|]. split; [|split; [|split; [|split]]].
  - now rewrite (find_update_same _ _ (setHealth_id _ _ _) _ _ Hfind).
  - intros other Hne.
    now rewrite (find_update_other _ _ (setHealth_id _ _ _) _ _ Hne).
  - apply update_ids. apply setHealth_id.
  - reflexivity.
  - reflexivity.
Qed.

Lemma update_health_changes_one_node_witness :
  exists row,
    queries.GetNodeByID upkeep.registry 2%N = inl row /\
    queries.GetNodeByID upkeep.registry' 2%N = inl upkeep.N2' /\
    (forall other, other <> 2%N ->
       queries.GetNodeByID upkeep.registry' other = queries.GetNodeByID upkeep.registry other) /\
    map (@db.ID float) (db.nodes upkeep.registry') = map (@db.ID float) (db.nodes upkeep.registry) /\
    (db.ID upkeep.N2', db.Name upkeep.N2', db.LocationX upkeep.N2', db.LocationY upkeep.N2',
     db.Endpoint upkeep.N2', db.Capacity upkeep.N2', db.CreatedAt upkeep.N2')
    = (db.ID row, db.Name row, db.LocationX row, db.LocationY row, db.Endpoint row,
       db.Capacity row, db.CreatedAt row) /\
    (db.CpuUsage upkeep.N2', db.MemoryUsage upkeep.N2', db.ActiveConnections upkeep.N2',
     db.LastHealthCheck upkeep.N2', db.UpdatedAt upkeep.N2')
    = (Some (f_int 99), Some (f_int 95), Some 100, Some 1700000100, Some 1700000100).
Proof.
  apply (update_health_changes_one_node upkeep.registry upkeep.registry' upkeep.env
           upkeep.report upkeep.N2').
  vm_compute. reflexivity.
Defined.



(** X14: after a successful [UpdateNodeHealth], a node stored with a status
    other than [healthy] is never the one [RouteRequest] selects; and a node
    stored as [healthy], when no other row is healthy, is the one selected,
    with the data just stored. *)
Theorem status_update_controls_routing
    {F : Type} `{Arith F} `{Sqrt F} `{SliceSorter} {laws : SliceSorterLaws} `{Varchar}
    (d d' : db.Database F) (env : Env) (arg : queries.UpdateNodeHealthParams F)
    (row' : db.Node F) (requestID : string) (c : models.Location F) :
  queries.UpdateNodeHealth d env arg = (d', inl row') ->
  (db.Status row' <> Some "healthy" ->
   forall n, routing.RouteRequest (routing.mkService d') requestID c = Ret (Some n, None) ->
             models.ID n <> queries.uhID arg) /\
  (db.Status row' = Some "healthy" -> queries.primary_key d ->
   (forall r, In r (db.nodes d) -> db.ID r <> queries.uhID arg ->
              db.Status r <> Some "healthy") ->
   routing.RouteRequest (routing.mkService d') requestID c
     = Ret (Some (routing.convertDBNodeToModel row'), None)).
Proof.
  intros Hu.
  destruct (UpdateNodeHealth_inv _ _ _ _ _ Hu) as (row & status & Hf & Hfind & _ & -> & ->).
  split.
  - intros Hs n Hr.
    destruct (RouteRequest_selected (routing.mkService (db.mkDatabase _ None)) requestID c n eq_refl Hr) as (r & Hin & Hh & ->).
    cbn [routing.sdb db.nodes] in Hin.
    apply In_update in Hin; [|apply setHealth_id].
    destruct Hin as [[_ (r0 & _ & _ & ->)] | [Hne _]].
    + simpl in Hh, Hs. congruence.
    + exact Hne.
  - intros Hs Hpk Hothers.
    destruct (RouteRequest_healthy (routing.mkService
                (db.mkDatabase
                   (map (fun r => if queries.has_id (queries.uhID arg) r
                                  then queries.setHealth (now env) status arg r else r)
                      (db.nodes d)) None)) requestID c eq_refl)
      as (r & Hin & Hh & ->).
    + exists (queries.setHealth (now env) status arg row). split; [|exact Hs].
      cbn [routing.sdb db.nodes]. apply in_map_iff. exists row.
      destruct (find_In _ _ _ Hfind) as [Hrow Hid].
      split; [|exact Hrow].
      now rewrite (proj2 (has_id_true _ _) Hid).
    + cbn [routing.sdb db.nodes] in Hin.
      apply In_update in Hin; [|apply setHealth_id].
      destruct Hin as [[_ (r0 & Hr0 & Hid0 & ->)] | [Hne Hr]].
      * now rewrite (find_unique _ _ _ _ Hpk Hfind Hr0 Hid0).
      * exfalso. exact (Hothers r Hr Hne Hh).
Qed.

Lemma status_update_controls_routing_witness :
  (forall n,
     routing.RouteRequest (routing.mkService upkeep.registry') "req-1" scenario.at_1_1
       = Ret (Some n, None) -> models.ID n <> 2%N) /\
  routing.RouteRequest
    (routing.mkService
       (db.mkDatabase
          [queries.setHealth 1700000100 (Some "healthy")
             (queries.mkUpdateNodeHealthParams 3%N (Some "healthy") (Some (f_int 20))
                (Some (f_int 30)) (Some 4) (Some 1700000100)) scenario.N3] None))
    "req-1" scenario.at_1_1
  = Ret (Some (routing.convertDBNodeToModel
                 (queries.setHealth 1700000100 (Some "healthy")
                    (queries.mkUpdateNodeHealthParams 3%N (Some "healthy") (Some (f_int 20))
                       (Some (f_int 30)) (Some 4) (Some 1700000100)) scenario.N3)), None).
Proof.
  split.
  - apply (status_update_controls_routing upkeep.registry upkeep.registry' upkeep.env
             upkeep.report upkeep.N2' "req-1" scenario.at_1_1).
    + vm_compute. reflexivity.
    + discriminate.
  - apply (status_update_controls_routing
             (db.mkDatabase [scenario.N3] None) _ upkeep.env
             (queries.mkUpdateNodeHealthParams 3%N (Some "healthy") (Some (f_int 20))
                (Some (f_int 30)) (Some 4) (Some 1700000100)) _ "req-1" scenario.at_1_1).
    + vm_compute. reflexivity.
    + reflexivity.
    + repeat constructor. simpl. tauto.
    + intros r [<- | []] Hne. exfalso. now apply Hne.
Defined.

Lemma find_filter_other {F : Type} (id other : UUID) (rows : list (db.Node F)) :
  other <> id ->
  find (queries.has_id other) (filter (fun r => negb (queries.has_id id r)) rows)
  = find (queries.has_id other) rows.
Proof.
  intros Hne. induction rows as [|r rest IH]; simpl; [reflexivity|].
  destruct (queries.has_id id r) eqn:E; simpl.
  - apply has_id_true in E.
    assert (E2 : queries.has_id other r = false) by (apply has_id_false; congruence).
    rewrite E2. exact IH.
  - destruct (queries.has_id other r); [reflexivity | exact IH].
Qed.

(** X15: after a successful [DeleteNode] the id is not found, every other
    id reads as before, [RouteRequest] never selects the deleted node, and
    deleting again changes nothing. *)
Theorem delete_node_removes_it
    {F : Type} `{Arith F} `{Sqrt F} `{SliceSorter} {laws : SliceSorterLaws} `{Varchar}
    (d d' : db.Database F) (id : UUID) (requestID : string) (c : models.Location F) :
  queries.DeleteNode d id = (d', None) ->
  queries.GetNodeByID d' id = inr queries.ErrNoRows /\
  (forall other, other <> id -> queries.GetNodeByID d' other = queries.GetNodeByID d other) /\
  (forall n, routing.RouteRequest (routing.mkService d') requestID c = Ret (Some n, None) ->
             models.ID n <> id) /\
  queries.DeleteNode d' id = (d', None).
Proof.
  unfold queries.DeleteNode. destruct (db.fault d) as [e|] eqn:Hf; [discriminate|].
  intros [= <-]. cbn [db.fault db.nodes].
  assert (Hgone : forall row,
            In row (filter (fun r => negb (queries.has_id id r)) (db.nodes d)) ->
            db.ID row <> id).
  { intros row Hin. apply filter_In in Hin. destruct Hin as [_ Hn].
    apply has_id_false. now destruct (queries.has_id id row). }
  split; [|split; [|split]].
  - unfold queries.GetNodeByID. cbn [db.fault db.nodes].
    now rewrite (proj2 (find_none_iff _ _) Hgone).
  - intros other Hne. unfold queries.GetNodeByID. cbn [db.fault db.nodes]. rewrite Hf.
    now rewrite find_filter_other.
  - intros n Hr.
    destruct (RouteRequest_selected (routing.mkService (db.mkDatabase _ None)) requestID c n eq_refl Hr) as (r & Hin & _ & ->).
    exact (Hgone r Hin).
  - now rewrite filter_idem.
Qed.

Lemma delete_node_removes_it_witness :
  let d' := db.mkDatabase [scenario.N3; scenario.N2] None in
  queries.GetNodeByID d' 1%N = inr queries.ErrNoRows /\
  (forall other, other <> 1%N ->
     queries.GetNodeByID d' other = queries.GetNodeByID upkeep.registry other) /\
  (forall n, routing.RouteRequest (routing.mkService d') "req-1" scenario.at_1_1
               = Ret (Some n, None) -> models.ID n <> 1%N) /\
  queries.DeleteNode d' 1%N = (d', None).
Proof.
  intros d'.
  apply (delete_node_removes_it upkeep.registry d' 1%N "req-1" scenario.at_1_1).
  vm_compute. reflexivity.
Defined.

(** X16: a successful [CreateNode] returns the row it stored under an id
    that was not in use: the id now reads as that row, every other id reads
    as before, the registry holds the old rows and the new one, the primary
    key is kept, and the row has the given location and capacity, usage 0,
    no connection, no health check and both timestamps set to now. *)
Theorem create_node_then_lookup
    {F : Type} `{Arith F} `{Varchar}
    (d d' : db.Database F) (env : Env) (arg : queries.CreateNodeParams F) (row : db.Node F) :
  queries.CreateNode d env arg = (d', inl row) ->
  queries.GetNodeByID d (newUUID env) = inr queries.ErrNoRows /\
  queries.GetNodeByID d' (newUUID env) = inl row /\
  (forall other, other <> newUUID env ->
     queries.GetNodeByID d' other = queries.GetNodeByID d other) /\
  Permutation (db.nodes d') (row :: db.nodes d) /\
  (queries.primary_key d -> queries.primary_key d') /\
  (db.ID row, db.LocationX row, db.LocationY row, db.Capacity row,
   db.CpuUsage row, db.MemoryUsage row, db.ActiveConnections row,
   db.LastHealthCheck row, db.CreatedAt row, db.UpdatedAt row)
  = (newUUID env, queries.cpLocationX arg, queries.cpLocationY arg, queries.cpCapacity arg,
     Some (f_lit 0), Some (f_lit 0), Some 0, None, Some (now env), Some (now env)).
Proof.
  unfold queries.CreateNode. destruct (db.fault d) as [e|] eqn:Hf; [discriminate|].
  destruct (varchar 255 (queries.cpName arg)) as [name|]; [|discriminate].
  destruct (varchar 255 (queries.cpEndpoint arg)) as [endpoint|]; [|discriminate].
  destruct (queries.varchar_opt 20 (queries.cpStatus arg)) as [status|]; [|discriminate].
  destruct (existsb _ _) eqn:Hex; [discriminate|].
  intros [= <- <-].
  assert (Hfresh : forall r, In r (db.nodes d) -> db.ID r <> newUUID env).
  { intros r Hin. apply has_id_false.
    destruct (queries.has_id (newUUID env) r) eqn:E; [|reflexivity].
    assert (T : existsb (queries.has_id (newUUID env)) (db.nodes d) = true)
      by (apply existsb_exists; now exists r).
    congruence. }
  unfold queries.GetNodeByID. cbn [db.fault db.nodes]. rewrite Hf.
  split; [|split; [|split; [|split; [|split]]]].
  - now rewrite (proj2 (find_none_iff _ _) Hfresh).
  - rewrite find_insert_new; [reflexivity | apply N.eqb_refl | exact Hex].
  - intros other Hne. rewrite find_insert_other; [reflexivity|].
    apply has_id_false. simpl. congruence.
  - apply insertByCreated_perm.
  - unfold queries.primary_key. cbn [db.nodes]. intros Hpk.
    apply (Permutation_NoDup (Permutation_sym (Permutation_map _ (insertByCreated_perm _ _ _)))).
    simpl. constructor; [|exact Hpk].
    intros Hin. apply in_map_iff in Hin. destruct Hin as (r & Hid & Hr).
    exact (Hfresh r Hr Hid).
  - reflexivity.
Qed.

Lemma create_node_then_lookup_witness :
  let d' := db.mkDatabase [upkeep.N7; scenario.N3; scenario.N2; scenario.N1] None in
  queries.GetNodeByID upkeep.registry 77%N = inr queries.ErrNoRows /\
  queries.GetNodeByID d' 77%N = inl upkeep.N7 /\
  (forall other, other <> 77%N ->
     queries.GetNodeByID d' other = queries.GetNodeByID upkeep.registry other) /\
  Permutation (db.nodes d') (upkeep.N7 :: db.nodes upkeep.registry) /\
  (queries.primary_key upkeep.registry -> queries.primary_key d') /\
  (db.ID upkeep.N7, db.LocationX upkeep.N7, db.LocationY upkeep.N7, db.Capacity upkeep.N7,
   db.CpuUsage upkeep.N7, db.MemoryUsage upkeep.N7, db.ActiveConnections upkeep.N7,
   db.LastHealthCheck upkeep.N7, db.CreatedAt upkeep.N7, db.UpdatedAt upkeep.N7)
  = (77%N, f_int 3, f_int 4, Some 50,
     Some (f_lit 0), Some (f_lit 0), Some 0, None, Some 1700000100, Some 1700000100).
Proof.
  intros d'.
  apply (create_node_then_lookup upkeep.registry d' upkeep.env upkeep.params upkeep.N7).
  vm_compute. reflexivity.
Defined.

Lemma CreateNode_primary_key
    {F : Type} `{Arith F} `{Varchar}
    (d : db.Database F) (env : Env) (c : queries.CreateNodeParams F) :
  queries.primary_key d -> queries.primary_key (fst (queries.CreateNode d env c)).
Proof.
  intros Hpk. unfold queries.CreateNode.
  destruct (db.fault d); [exact Hpk|].
  destruct (varchar 255 _); [|exact Hpk].
  destruct (varchar 255 _); [|exact Hpk].
  destruct (queries.varchar_opt 20 _); [|exact Hpk].
  destruct (existsb _ _) eqn:Hex; [exact Hpk|].
  unfold queries.primary_key in *. cbn [fst db.nodes].
  apply (Permutation_NoDup (Permutation_sym (Permutation_map _ (insertByCreated_perm _ _ _)))).
  simpl. constructor; [|exact Hpk].
  intros Hin. apply in_map_iff in Hin. destruct Hin as (r & Hid & Hr).
  assert (T : existsb (queries.has_id (newUUID env)) (db.nodes d) = true).
  { apply existsb_exists. exists r. split; [exact Hr | now apply has_id_true]. }
  congruence.
Qed.

(** X17: the four statements that write ([CreateNode], [UpdateNode],
    [UpdateNodeHealth], [DeleteNode]) keep the primary key, whether they
    succeed or fail: no two rows share an id afterwards. *)
Theorem writes_keep_primary_key
    {F : Type} `{Arith F} `{Varchar}
    (d : db.Database F) (env : Env)
    (c : queries.CreateNodeParams F) (u : queries.UpdateNodeParams F)
    (h : queries.UpdateNodeHealthParams F) (id : UUID) :
  queries.primary_key d ->
  queries.primary_key (fst (queries.CreateNode d env c)) /\
  queries.primary_key (fst (queries.UpdateNode d env u)) /\
  queries.primary_key (fst (queries.UpdateNodeHealth d env h)) /\
  queries.primary_key (fst (queries.DeleteNode d id)).
Proof.
  intros Hpk. split; [|split; [|split]].
  - now apply CreateNode_primary_key.
  - unfold queries.UpdateNode. destruct (db.fault d); [exact Hpk|].
    destruct (find _ _); [|exact Hpk].
    destruct (varchar 255 _); [|exact Hpk].
    destruct (varchar 255 _); [|exact Hpk].
    destruct (queries.varchar_opt 20 _); [|exact Hpk].
    unfold queries.primary_key. cbn [fst db.nodes].
    rewrite update_ids; [exact Hpk | intros r; apply setNode_id].
  - unfold queries.UpdateNodeHealth. destruct (db.fault d); [exact Hpk|].
    destruct (find _ _); [|exact Hpk].
    destruct (queries.varchar_opt 20 _); [|exact Hpk].
    unfold queries.primary_key. cbn [fst db.nodes].
    rewrite update_ids; [exact Hpk | intros r; apply setHealth_id].
  - unfold queries.DeleteNode. destruct (db.fault d); [exact Hpk|].
    unfold queries.primary_key in *. cbn [fst db.nodes].
    clear -Hpk. induction (db.nodes d) as [|r rest IH]; simpl; [constructor|].
    inversion Hpk as [|? ? Hnot Hnd]; subst.
    destruct (negb (queries.has_id id r)); simpl; [|now apply IH].
    constructor; [|now apply IH].
    intros Hin. apply Hnot. apply in_map_iff in Hin. destruct Hin as (x & Hx & Hxin).
    apply in_map_iff. exists x. split; [exact Hx|]. now apply filter_In in Hxin.
Qed.

Lemma writes_keep_primary_key_witness :
  queries.primary_key (fst (queries.CreateNode upkeep.registry upkeep.env upkeep.params)) /\
  queries.primary_key
    (fst (queries.UpdateNode upkeep.registry upkeep.env
            (queries.mkUpdateNodeParams 1%N "N1b" (f_int 2) (f_int 2) "http://N1b"
               (Some 10) (Some "active") None None None None))) /\
  queries.primary_key (fst (queries.UpdateNodeHealth upkeep.registry upkeep.env upkeep.report)) /\
  queries.primary_key (fst (queries.DeleteNode upkeep.registry 3%N)).
Proof.
  apply (writes_keep_primary_key upkeep.registry upkeep.env upkeep.params
           (queries.mkUpdateNodeParams 1%N "N1b" (f_int 2) (f_int 2) "http://N1b"
              (Some 10) (Some "active") None None None None)
           upkeep.report 3%N).
  unfold queries.primary_key. simpl. repeat constructor; simpl; intuition discriminate.
Defined.

(** ** The node store of the admin UI *)

Section StoreFacts.
Context {F : Type}.
Import useNodeStore.

Lemma filter_other_all (i : string) (l : list (Node F)) :
  (forall n, In n l -> id n <> i) ->
  filter (fun node => negb (String.eqb (id node) i)) l = l.
Proof.
  intros Hall. induction l as [|n rest IH]; simpl; [reflexivity|].
  assert (E : String.eqb (id n) i = false) by (apply String.eqb_neq, Hall; now left).
  rewrite E. simpl. f_equal. apply IH. intros m Hm. apply Hall. now right.
Qed.

Lemma map_other_all (i : string) (g : Node F -> Node F) (l : list (Node F)) :
  (forall n, In n l -> id n <> i) ->
  map (fun node => if String.eqb (id node) i then g node else node) l = l.
Proof.
  intros Hall. induction l as [|n rest IH]; simpl; [reflexivity|].
  assert (E : String.eqb (id n) i = false) by (apply String.eqb_neq, Hall; now left).
  rewrite E. f_equal. apply IH. intros m Hm. apply Hall. now right.
Qed.
End StoreFacts.

(** X18: in the node store, a created node goes last; deleting by its id
    leaves no node of that id, gives the list back as it was when no node had
    that id before, and is idempotent; [selectedNode] is left as it was
    (even when it is the node deleted) and [loading] ends false. *)
Theorem store_create_then_delete
    {F : Type} (s : useNodeStore.NodeState F) (new : useNodeStore.Node F) :
  let created := fst (useNodeStore.createNode (inl new) s) in
  let deleted := fst (useNodeStore.deleteNode (useNodeStore.id new) (inl tt) created) in
  useNodeStore.nodes created = (useNodeStore.nodes s ++ [new])%list /\
  (forall n, In n (useNodeStore.nodes deleted) -> useNodeStore.id n <> useNodeStore.id new) /\
  ((forall n, In n (useNodeStore.nodes s) -> useNodeStore.id n <> useNodeStore.id new) ->
   useNodeStore.nodes deleted = useNodeStore.nodes s) /\
  fst (useNodeStore.deleteNode (useNodeStore.id new) (inl tt) deleted) = deleted /\
  useNodeStore.selectedNode deleted = useNodeStore.selectedNode s /\
  useNodeStore.loading deleted = false.
Proof.
  intros created deleted. subst deleted created.
  unfold useNodeStore.createNode, useNodeStore.deleteNode, useNodeStore.setLoading.
  cbn [fst useNodeStore.nodes useNodeStore.selectedNode useNodeStore.loading].
  split; [reflexivity|]. split; [|split; [|split; [|split; reflexivity]]].
  - intros n Hn. apply filter_In in Hn. destruct Hn as [_ Hn].
    apply String.eqb_neq. now destruct (String.eqb (useNodeStore.id n) (useNodeStore.id new)).
  - intros Hfresh. rewrite filter_app. simpl. rewrite String.eqb_refl. simpl.
    rewrite app_nil_r. now apply filter_other_all.
  - now rewrite filter_idem.
Qed.

Lemma store_create_then_delete_witness :
  useNodeStore.nodes
    (fst (useNodeStore.deleteNode "c3" (inl tt)
            (fst (useNodeStore.createNode (inl dashboard.n3) dashboard.state))))
  = useNodeStore.nodes dashboard.state.
Proof.
  apply (store_create_then_delete dashboard.state dashboard.n3).
  intros n Hn. simpl in Hn. destruct Hn as [<- | [<- | []]]; discriminate.
Defined.

(** X19: in the node store, a successful [updateNode] keeps the length of
    the list: every node of the given id becomes the node the API returned
    and the others stay.  The ids stay as they were when the returned node
    has the given id, the list is unchanged when no node has that id, and
    [selectedNode] is left as it was. *)
Theorem store_update_replaces_by_id
    {F : Type} (s : useNodeStore.NodeState F) (i : string) (updated : useNodeStore.Node F) :
  let s' := fst (useNodeStore.updateNode i (inl updated) s) in
  List.length (useNodeStore.nodes s') = List.length (useNodeStore.nodes s) /\
  (forall n, In n (useNodeStore.nodes s') ->
     n = updated \/ (In n (useNodeStore.nodes s) /\ useNodeStore.id n <> i)) /\
  (useNodeStore.id updated = i ->
   map (@useNodeStore.id F) (useNodeStore.nodes s')
   = map (@useNodeStore.id F) (useNodeStore.nodes s)) /\
  ((forall n, In n (useNodeStore.nodes s) -> useNodeStore.id n <> i) ->
   useNodeStore.nodes s' = useNodeStore.nodes s) /\
  useNodeStore.selectedNode s' = useNodeStore.selectedNode s.
Proof.
  intros s'. subst s'. unfold useNodeStore.updateNode, useNodeStore.setLoading.
  cbn [fst useNodeStore.nodes useNodeStore.selectedNode].
  split; [apply length_map|]. split; [|split; [|split; [|reflexivity]]].
  - intros n Hn. apply in_map_iff in Hn. destruct Hn as (m & <- & Hm).
    destruct (String.eqb (useNodeStore.id m) i) eqn:E; [now left|].
    right. split; [exact Hm | now apply String.eqb_neq].
  - intros Hid. rewrite map_map. apply map_ext. intros m.
    destruct (String.eqb (useNodeStore.id m) i) eqn:E; [|reflexivity].
    apply String.eqb_eq in E. congruence.
  - apply map_other_all.
Qed.

Lemma store_update_replaces_by_id_witness :
  map (@useNodeStore.id Q)
    (useNodeStore.nodes
       (fst (useNodeStore.updateNode "b2" (inl (useNodeStore.spread dashboard.n2 dashboard.update))
               dashboard.state)))
  = map (@useNodeStore.id Q) (useNodeStore.nodes dashboard.state) /\
  useNodeStore.nodes (fst (useNodeStore.updateNode "zz" (inl dashboard.n3) dashboard.state))
  = useNodeStore.nodes dashboard.state.
Proof.
  split.
  - apply (store_update_replaces_by_id dashboard.state "b2"
             (useNodeStore.spread dashboard.n2 dashboard.update)).
    reflexivity.
  - apply (store_update_replaces_by_id dashboard.state "zz" dashboard.n3).
    intros n Hn. simpl in Hn. destruct Hn as [<- | [<- | []]]; discriminate.
Defined.

Lemma spread_id {F : Type} (node : useNodeStore.Node F) (data : useNodeStore.PartialNode F) :
  useNodeStore.same_id node data = true ->
  useNodeStore.id (useNodeStore.spread node data) = useNodeStore.id node.
Proof.
  unfold useNodeStore.same_id, useNodeStore.spread. simpl.
  destruct (useNodeStore.p_id data) as [i|]; [|discriminate].
  intros E. apply String.eqb_eq in E. simpl. congruence.
Qed.

Lemma spread_twice {F : Type} (node : useNodeStore.Node F) (data : useNodeStore.PartialNode F) :
  useNodeStore.spread (useNodeStore.spread node data) data = useNodeStore.spread node data.
Proof.
  unfold useNodeStore.spread, useNodeStore.override. simpl.
  destruct data as [a b c d e f g h i j k l m]; simpl.
  destruct a, b, c, d, e, f, g, h, i, j, k, l, m; reflexivity.
Qed.



(** ** The subscriptions of the websocket service *)

Section Listeners.
Import WebSocketService.

Lemma get_mutate_same type f m :
  get type (mutate type f m) = option_map f (get type m).
Proof.
  induction m as [|[k v] rest IH]; simpl; [reflexivity|].
  destruct (String.eqb k type) eqn:E; simpl; rewrite E; [reflexivity | exact IH].
Qed.

Lemma get_mutate_other type other f m :
  other <> type -> get other (mutate type f m) = get other m.
Proof.
  intros Hne. induction m as [|[k v] rest IH]; simpl; [reflexivity|].
  destruct (String.eqb k type) eqn:E; simpl.
  - apply String.eqb_eq in E. subst k.
    assert (E : String.eqb type other = false) by (apply String.eqb_neq; congruence).
    now rewrite E.
  - destruct (String.eqb k other); [reflexivity | exact IH].
Qed.

Lemma get_set_new type other v m :
  get other (set_new type v m)
  = match get other m with
    | Some cbs => Some cbs
    | None => if String.eqb type other then Some v else None
    end.
Proof.
  unfold set_new. induction m as [|[k w] rest IH]; simpl; [reflexivity|].
  destruct (String.eqb k other); [reflexivity | exact IH].
Qed.

Lemma subscribed_subscribe type callback other s :
  subscribed other (subscribe type callback s)
  = if String.eqb type other then (subscribed other s ++ [callback])%list
    else subscribed other s.
Proof.
  unfold subscribed, subscribe, has. cbn [listeners].
  destruct (String.eqb type other) eqn:E.
  - apply String.eqb_eq in E. subst other. rewrite get_mutate_same.
    destruct (get type (listeners s)) as [cbs|] eqn:G.
    + rewrite G. reflexivity.
    + rewrite get_set_new, G, String.eqb_refl. reflexivity.
  - apply String.eqb_neq in E. rewrite get_mutate_other by congruence.
    destruct (get type (listeners s)) as [cbs|] eqn:G; [reflexivity|].
    rewrite get_set_new. destruct (get other (listeners s)); [reflexivity|].
    apply String.eqb_neq in E. now rewrite E.
Qed.

Lemma subscribed_unsubscribe type callback other s :
  subscribed other (unsubscribe type callback s)
  = if String.eqb type other
    then match indexOf callback (subscribed other s) with
         | Some index => splice1 index (subscribed other s)
         | None => subscribed other s
         end
    else subscribed other s.
Proof.
  unfold subscribed, unsubscribe.
  destruct (String.eqb type other) eqn:E.
  - apply String.eqb_eq in E. subst other.
    destruct (get type (listeners s)) as [cbs|] eqn:G.
    + destruct (indexOf callback cbs) as [i|]; cbn [listeners].
      * rewrite get_mutate_same, G. reflexivity.
      * rewrite G. reflexivity.
    + rewrite G. reflexivity.
  - apply String.eqb_neq in E.
    destruct (get type (listeners s)) as [cbs|] eqn:G; [|reflexivity].
    destruct (indexOf callback cbs) as [i|]; [|reflexivity].
    cbn [listeners]. rewrite get_mutate_other by congruence. reflexivity.
Qed.

Lemma indexOf_none cb cbs : indexOf cb cbs = None <-> ~ In cb cbs.
Proof.
  induction cbs as [|c rest IH]; simpl; [tauto|].
  destruct (Nat.eqb c cb) eqn:E.
  - apply Nat.eqb_eq in E. split; [discriminate | intros Hn; exfalso; apply Hn; now left].
  - apply Nat.eqb_neq in E. destruct (indexOf cb rest); simpl.
    + split; [discriminate|]. intros Hn. exfalso. apply Hn. right.
      destruct (in_dec Nat.eq_dec cb rest) as [Hi|Hi]; [exact Hi|].
      apply IH in Hi. discriminate.
    + split; [|reflexivity]. intros _ [Hc | Hr]; [congruence|]. now apply (proj1 IH).
Qed.

Lemma splice_appended cb cbs :
  match indexOf cb (cbs ++ [cb]) with
  | Some index =>
      Permutation (splice1 index (cbs ++ [cb])) cbs /\
      (~ In cb cbs -> splice1 index (cbs ++ [cb]) = cbs)
  | None => False
  end.
Proof.
  induction cbs as [|c rest IH]; simpl.
  - rewrite Nat.eqb_refl. unfold splice1. simpl. split; [constructor | reflexivity].
  - destruct (Nat.eqb c cb) eqn:E.
    + apply Nat.eqb_eq in E. subst c. unfold splice1. simpl. split.
      * apply Permutation_sym, Permutation_cons_append.
      * intros Hn. exfalso. apply Hn. now left.
    + destruct (indexOf cb (rest ++ [cb])) as [i|]; simpl; [|exact IH].
      destruct IH as [P Q]. unfold splice1 in *. simpl. split.
      * now constructor.
      * intros Hn. f_equal. apply Q. intros Hi. apply Hn. now right.
Qed.

Lemma onmessage_subscribed {D : Type} type (data : D) s :
  onmessage (Some (type, data)) s = map (fun cb => (cb, data)) (subscribed type s).
Proof.
  unfold onmessage, subscribed. now destruct (get type (listeners s)).
Qed.
End Listeners.

(** X21: a callback just subscribed to a type is called last for a message
    of that type.  Unsubscribing it gives every message the same calls as
    before the subscription, up to their order: the first occurrence of the
    callback is removed, not the one just added.  When the callback was not
    subscribed to the type before, the calls are exactly as before, and
    unsubscribing a callback that is not subscribed changes nothing. *)
Theorem unsubscribe_after_subscribe
    {D : Type} (s : WebSocketService.Service) (type : string)
    (callback : WebSocketService.Callback) (parsed : option (string * D)) (data : D) :
  let s1 := WebSocketService.subscribe type callback s in
  let s2 := WebSocketService.unsubscribe type callback s1 in
  WebSocketService.onmessage (Some (type, data)) s1
  = (WebSocketService.onmessage (Some (type, data)) s ++ [(callback, data)])%list /\
  Permutation (WebSocketService.onmessage parsed s2) (WebSocketService.onmessage parsed s) /\
  (~ In callback (WebSocketService.subscribed type s) ->
   WebSocketService.onmessage parsed s2 = WebSocketService.onmessage parsed s /\
   WebSocketService.unsubscribe type callback s = s).
Proof.
  intros s1 s2. subst s2 s1.
  assert (Hsub : forall other,
            WebSocketService.subscribed other
              (WebSocketService.unsubscribe type callback
                 (WebSocketService.subscribe type callback s))
            = if String.eqb type other
              then match WebSocketService.indexOf callback
                           (WebSocketService.subscribed other s ++ [callback]) with
                   | Some index =>
                       WebSocketService.splice1 index
                         (WebSocketService.subscribed other s ++ [callback])
                   | None => (WebSocketService.subscribed other s ++ [callback])%list
                   end
              else WebSocketService.subscribed other s).
  { intros other. rewrite subscribed_unsubscribe, subscribed_subscribe.
    now destruct (String.eqb type other). }
  split; [|split].
  - rewrite !onmessage_subscribed, subscribed_subscribe, String.eqb_refl.
    now rewrite map_app.
  - destruct parsed as [[other d]|]; [|constructor].
    rewrite !onmessage_subscribed, Hsub. apply Permutation_map.
    destruct (String.eqb type other); [|reflexivity].
    pose proof (splice_appended callback (WebSocketService.subscribed other s)) as K.
    destruct (WebSocketService.indexOf callback _); [apply K | contradiction].
  - intros Hnew. split.
    + destruct parsed as [[other d]|]; [|reflexivity].
      rewrite !onmessage_subscribed, Hsub. f_equal.
      destruct (String.eqb type other) eqn:E; [|reflexivity].
      apply String.eqb_eq in E. subst other.
      pose proof (splice_appended callback (WebSocketService.subscribed type s)) as K.
      destruct (WebSocketService.indexOf callback _); [now apply K | contradiction].
    + unfold WebSocketService.unsubscribe, WebSocketService.subscribed in *.
      destruct (WebSocketService.get type (WebSocketService.listeners s)) as [cbs|];
        [|reflexivity].
      now rewrite (proj2 (indexOf_none callback cbs) Hnew).
Qed.

Lemma unsubscribe_after_subscribe_witness :
  WebSocketService.onmessage (Some ("node_health_updated", 5%Z))
    (WebSocketService.unsubscribe "node_health_updated" 2%nat
       (WebSocketService.subscribe "node_health_updated" 2%nat
          (WebSocketService.subscribe "node_health_updated" 1%nat WebSocketService.initial)))
  = WebSocketService.onmessage (Some ("node_health_updated", 5%Z))
      (WebSocketService.subscribe "node_health_updated" 1%nat WebSocketService.initial) /\
  WebSocketService.unsubscribe "node_health_updated" 2%nat
    (WebSocketService.subscribe "node_health_updated" 1%nat WebSocketService.initial)
  = WebSocketService.subscribe "node_health_updated" 1%nat WebSocketService.initial.
Proof.
  apply (unsubscribe_after_subscribe
           (WebSocketService.subscribe "node_health_updated" 1%nat WebSocketService.initial)
           "node_health_updated" 2%nat (Some ("node_health_updated", 5%Z)) 5%Z).
  simpl. intros [E | []]. discriminate.
Defined.

(** X22: [connect] (and [disconnect]) drop every subscription: afterwards no
    message calls anything and unsubscribing is a no-op; a callback
    subscribed after [connect] is the only one called; and the unsubscribe
    function of a subscription made before [connect] cancels a subscription
    of the same callback made after it. *)
Theorem connect_drops_subscriptions
    {D : Type} (s : WebSocketService.Service) (url type : string)
    (callback : WebSocketService.Callback) (parsed : option (string * D)) (data : D) :
  WebSocketService.onmessage parsed (WebSocketService.connect url s) = [] /\
  WebSocketService.onmessage parsed (WebSocketService.disconnect s) = [] /\
  WebSocketService.unsubscribe type callback (WebSocketService.connect url s)
  = WebSocketService.connect url s /\
  WebSocketService.onmessage (Some (type, data))
    (WebSocketService.subscribe type callback (WebSocketService.connect url s))
  = [(callback, data)] /\
  WebSocketService.onmessage (Some (type, data))
    (WebSocketService.unsubscribe type callback
       (WebSocketService.subscribe type callback
          (WebSocketService.connect url (WebSocketService.subscribe type callback s))))
  = [].
Proof.
  split; [|split; [|split; [|split]]].
  - destruct parsed as [[t d]|]; reflexivity.
  - destruct parsed as [[t d]|]; reflexivity.
  - reflexivity.
  - rewrite onmessage_subscribed, subscribed_subscribe, String.eqb_refl. reflexivity.
  - rewrite onmessage_subscribed, subscribed_unsubscribe, subscribed_subscribe,
      String.eqb_refl.
    unfold WebSocketService.subscribed. simpl. rewrite Nat.eqb_refl. reflexivity.
Qed.
